(** * markdown-to-mm: a shallow embedding of [tools/markdown-to-mm.js]

    The tool turns annotated Markdown into Meta:Magical documentation
    modules.  This development embeds its line classifier, its structural
    parser, the metadata analysis and the example miner as Rocq functions
    and states properties of them.

    Conventions of the embedding.
    - A JavaScript string is a [string]; a character is one code unit in
      the range 0..255.  In that range the line terminators of regular
      expressions are LF and CR, and the white space class [\s] is
      TAB, LF, VT, FF, CR, SPACE and NBSP.
    - [throw] is the [Throw] result; code running after a throw is skipped
      by [bind].
    - Regular expression literals are terms of [Regex.re], run by a
      backtracking matcher with the priorities of the ECMAScript one. *)

From Stdlib Require Import String Ascii List Bool Arith Lia DecimalString PrimFloat.
Import ListNotations.
Open Scope string_scope.

Set Warnings "-register-all".

(* ------------------------------------------------------------------ *)
(** ** Exceptions *)

(** The values thrown: the [Error]s the tool raises with their message,
    and the [TypeError]s of the runtime, whose wording is the engine's. *)
Inductive exn : Type :=
| Error (message : string)
| TypeError (message : string).

Inductive result (A : Type) : Type :=
| Ok (a : A)
| Throw (e : exn).

Arguments Ok {A} a.
Arguments Throw {A} e.

Definition bind {A B : Type} (m : result A) (f : A -> result B) : result B :=
  match m with
  | Ok a => f a
  | Throw e => Throw e
  end.

Notation "x <- m ;; k" := (bind m (fun x => k))
  (at level 61, m at next level, right associativity).

(** [xs.map(f)] for an [f] that may throw: the first exception, in element
    order, aborts the whole map. *)
Definition mapM {A B : Type} (f : A -> result B) : list A -> result (list B) :=
  fix go (xs : list A) : result (list B) :=
    match xs with
    | [] => Ok []
    | x :: xs' => y <- f x ;; ys <- go xs' ;; Ok (y :: ys)
    end.

Definition is_ok {A : Type} (m : result A) : bool :=
  match m with Ok _ => true | Throw _ => false end.

(** Decimal rendering of a number inside a template literal. *)
Definition show (n : nat) : string := NilZero.string_of_uint (Nat.to_uint n).

Definition LF : ascii := "010"%char.
Definition CR : ascii := "013"%char.
Definition TAB : ascii := "009"%char.

(** The one-character string holding a line feed. *)
Definition nl : string := String LF "".

(* ------------------------------------------------------------------ *)
(** ** Regular expressions *)

Module Regex.

(** The fragment of the pattern language the tool uses.  Quantifiers are
    only ever applied to a single character class, and are greedy. *)
Inductive re : Type :=
| Eps
| Chr (c : ascii)
| Star (p : ascii -> bool)
| Plus (p : ascii -> bool)
| Bol
| Eol
| Grp (r : re)
| Cat (r1 r2 : re)
| Alt (r1 r2 : re).

Fixpoint lit (s : string) : re :=
  match s with
  | EmptyString => Eps
  | String c s' => Cat (Chr c) (lit s')
  end.

Definition is_lt (c : ascii) : bool := Ascii.eqb c LF || Ascii.eqb c CR.

(** [\s] *)
Definition space (c : ascii) : bool :=
  existsb (Nat.eqb (nat_of_ascii c)) [9; 10; 11; 12; 13; 32; 160].

(** [.] *)
Definition dot (c : ascii) : bool := negb (is_lt c).

(** [[ \t]] *)
Definition blank (c : ascii) : bool := Ascii.eqb c " " || Ascii.eqb c TAB.

Definition is_char (a : ascii) (c : ascii) : bool := Ascii.eqb a c.

(** A continuation receives the character before the current position,
    the text still to be read, and the captures closed so far. *)
Definition cont : Type :=
  option ascii -> string -> list string -> option (string * list string).

(** Text read between [s] and its suffix [s']. *)
Definition consumed (s s' : string) : string :=
  substring 0 (String.length s - String.length s') s.

(** Greedy iteration: take a character when the class allows it, and
    fall back to stopping here when the rest then fails. *)
Fixpoint star (p : ascii -> bool) (prev : option ascii) (s : string)
         (caps : list string) (k : cont) : option (string * list string) :=
  match s with
  | String c s' =>
      if p c then
        match star p (Some c) s' caps k with
        | Some r => Some r
        | None => k prev s caps
        end
      else k prev s caps
  | EmptyString => k prev s caps
  end.

(** [^]: start of input, or after a line terminator with the [m] flag. *)
Definition at_bol (multiline : bool) (prev : option ascii) : bool :=
  match prev with
  | None => true
  | Some c => multiline && is_lt c
  end.

(** [$]: end of input, or before a line terminator with the [m] flag. *)
Definition at_eol (multiline : bool) (s : string) : bool :=
  match s with
  | EmptyString => true
  | String c _ => multiline && is_lt c
  end.

Fixpoint run (multiline : bool) (r : re) (prev : option ascii) (s : string)
         (caps : list string) (k : cont) : option (string * list string) :=
  match r with
  | Eps => k prev s caps
  | Chr c =>
      match s with
      | String c' s' => if Ascii.eqb c c' then k (Some c') s' caps else None
      | EmptyString => None
      end
  | Star p => star p prev s caps k
  | Plus p =>
      match s with
      | String c s' => if p c then star p (Some c) s' caps k else None
      | EmptyString => None
      end
  | Bol => if at_bol multiline prev then k prev s caps else None
  | Eol => if at_eol multiline s then k prev s caps else None
  | Grp r1 =>
      run multiline r1 prev s caps
          (fun prev' s' caps' => k prev' s' (caps' ++ [consumed s s'])%list)
  | Cat r1 r2 =>
      run multiline r1 prev s caps
          (fun prev' s' caps' => run multiline r2 prev' s' caps' k)
  | Alt r1 r2 =>
      match run multiline r1 prev s caps k with
      | Some x => Some x
      | None => run multiline r2 prev s caps k
      end
  end.

(** A match anchored at the current position: the text after the match
    and the captures. *)
Definition match_at (multiline : bool) (r : re) (prev : option ascii)
           (s : string) : option (string * list string) :=
  run multiline r prev s [] (fun _ s' caps => Some (s', caps)).

(** Number of characters of the match anchored here. *)
Definition match_len (multiline : bool) (r : re) (prev : option ascii)
           (s : string) : option nat :=
  match match_at multiline r prev s with
  | Some (s', _) => Some (String.length s - String.length s')
  | None => None
  end.

(** [RegExp.prototype.exec] on a pattern without the [g] flag: the
    leftmost match, as the matched text followed by the captures. *)
Fixpoint exec_from (multiline : bool) (r : re) (prev : option ascii)
         (s : string) : option (list string) :=
  match match_at multiline r prev s with
  | Some (s', caps) => Some (consumed s s' :: caps)
  | None =>
      match s with
      | String c s' => exec_from multiline r (Some c) s'
      | EmptyString => None
      end
  end.

Definition exec (multiline : bool) (r : re) (s : string) : option (list string) :=
  exec_from multiline r None s.

(** [re.test(s)] *)
Definition test (multiline : bool) (r : re) (s : string) : bool :=
  match exec multiline r s with Some _ => true | None => false end.

(** [s.replace(re, by)] for a pattern with the [g] flag and a replacement
    text without [$] references.  [skip] counts the characters of the
    current match still to be dropped.  An empty match inserts the
    replacement and lets the character through. *)
Fixpoint replace_from (multiline : bool) (r : re) (by_ : string) (skip : nat)
         (prev : option ascii) (s : string) : string :=
  match s with
  | EmptyString =>
      match skip, match_len multiline r prev s with
      | 0, Some _ => by_
      | _, _ => ""
      end
  | String c s' =>
      match skip with
      | S n => replace_from multiline r by_ n (Some c) s'
      | 0 =>
          match match_len multiline r prev s with
          | Some (S n) => by_ ++ replace_from multiline r by_ n (Some c) s'
          | Some 0 => by_ ++ String c (replace_from multiline r by_ 0 (Some c) s')
          | None => String c (replace_from multiline r by_ 0 (Some c) s')
          end
      end
  end.

Definition replace_all (multiline : bool) (r : re) (by_ : string) (s : string) : string :=
  replace_from multiline r by_ 0 None s.

(** [s.split(re)] for a pattern without capture groups.  [cur] holds the
    piece being read, reversed.  A match that is empty and sits at the
    start of the piece is not a separator. *)
Fixpoint rev_string (acc s : string) : string :=
  match s with
  | EmptyString => acc
  | String c s' => rev_string (String c acc) s'
  end.

Fixpoint split_from (r : re) (skip : nat) (prev : option ascii)
         (cur : string) (s : string) : list string :=
  match s with
  | EmptyString => [rev_string "" cur]
  | String c s' =>
      match skip with
      | S n => split_from r n (Some c) cur s'
      | 0 =>
          match match_len false r prev s with
          | Some (S n) => rev_string "" cur :: split_from r n (Some c) "" s'
          | Some 0 =>
              match cur with
              | EmptyString => split_from r 0 (Some c) (String c "") s'
              | _ => rev_string "" cur :: split_from r 0 (Some c) (String c "") s'
              end
          | None => split_from r 0 (Some c) (String c cur) s'
          end
      end
  end.

Definition split (r : re) (s : string) : list string :=
  match s with
  | EmptyString =>
      match match_at false r None s with
      | Some _ => []
      | None => [s]
      end
  | _ => split_from r 0 None "" s
  end.

End Regex.

Import Regex.

(* ------------------------------------------------------------------ *)
(** ** Helpers *)

(** [flatten(xs)]: [xs.reduce((a, b) => a.concat(b), [])] *)
Definition flatten {A : Type} (xs : list (list A)) : list A :=
  fold_left (fun a b => (a ++ b)%list) xs [].

(** [append(list, item)]: a [null] item is not added. *)
Definition append {A : Type} (xs : list A) (item : option A) : list A :=
  match item with
  | Some x => (xs ++ [x])%list
  | None => xs
  end.

(* ------------------------------------------------------------------ *)
(** ** Parser: line classification *)

(** [/\r\n|\n\r|\r|\n/] *)
Definition re_newline : re :=
  Alt (Cat (Chr CR) (Chr LF))
      (Alt (Cat (Chr LF) (Chr CR))
           (Alt (Chr CR) (Chr LF))).

(** [/^\@annotate:/] *)
Definition re_annotate_head : re := Cat Bol (lit "@annotate:").

(** [/^\@annotate:\s*(.+)/m] *)
Definition re_annotate : re :=
  Cat Bol (Cat (lit "@annotate:") (Cat (Star space) (Grp (Plus dot)))).

(** [/^\@guide:/] *)
Definition re_guide_head : re := Cat Bol (lit "@guide:").

(** [/^\@guide:\s*(.+)/m] *)
Definition re_guide : re :=
  Cat Bol (Cat (lit "@guide:") (Cat (Star space) (Grp (Plus dot)))).

(** [/^---+\s*$/] *)
Definition re_separator : re :=
  Cat Bol (Cat (lit "--") (Cat (Plus (is_char "-")) (Cat (Star space) Eol))).

(** The tagged pairs [[tag, payload]] built by [classifyLine], plus the
    [['EOF']] marker [parse] appends. *)
Inductive Node : Type :=
| Entity (ref : string)
| Guide (title : string)
| Separator
| EOF
| Line (line : string).

(** [line.match(re)[1]]: indexing the [null] of a failed match throws. *)
Definition match_group1 (multiline : bool) (r : re) (line : string) : result string :=
  match exec multiline r line with
  | Some (_ :: g :: _) => Ok g
  | Some _ => Throw (TypeError "capture group 1 is missing")
  | None => Throw (TypeError "Cannot read property '1' of null")
  end.

Definition classifyLine (line : string) : result Node :=
  if test false re_annotate_head line then
    ref <- match_group1 true re_annotate line ;; Ok (Entity ref)
  else if test false re_guide_head line then
    title <- match_group1 true re_guide line ;; Ok (Guide title)
  else if test false re_separator line then Ok Separator
  else Ok (Line line).

(* ------------------------------------------------------------------ *)
(** ** Parser: the fold over classified lines *)

(** The [ref] of a record: one reference text, or the array built by
    multi-reference grouping.  An array slot is [None] when it holds
    [undefined]. *)
Inductive RefVal : Type :=
| RefStr (s : string)
| RefArr (items : list (option string)).

(** The record under construction.  [title] and [ref] are [None] when the
    property is absent or [undefined]. *)
Record Annot : Type := mkAnnot {
  title : option string;
  ref : option RefVal;
  meta : string;
  doc : string;
  multi : bool;
  sealed : bool
}.

(** The values of [ctx.annotation] other than [null]. *)
Inductive Phase : Type := entity | guide.

Record Ctx : Type := mkCtx {
  annotation : option Phase;
  current : option Annot;
  ast : list Annot
}.

(** [intoArray(x)] at the type of [ref] values. *)
Definition intoArray (x : option RefVal) : list (option string) :=
  match x with
  | Some (RefArr items) => items
  | Some (RefStr s) => [Some s]
  | None => [None]
  end.

Definition msg_only_entities (i : nat) : string :=
  "Multiple annotations are only supported for entities. At line " ++ show (i + 1).

Definition msg_not_immediate (i : nat) : string :=
  "Multiple annotations have to follow each other immediately. Annotation in meta found at line "
    ++ show (i + 1).

Definition msg_guides (i : nat) : string :=
  "Multiple annotations are not supported for guides. At line " ++ show (i + 1).

Definition msg_separator (i : nat) : string :=
  "Annotation separator found without a matching entity at line " ++ show (i + 1).

Definition msg_documentation (i : nat) : string :=
  "Documentation found before an entity annotation at line " ++ show (i + 1).

(** The reducer of [parse]: one case per tag, [i] the index of the node. *)
Definition step (ctx : Ctx) (node : Node) (i : nat) : result Ctx :=
  match node with
  | Entity r =>
      match annotation ctx with
      | Some a =>
          match a with
          | guide => Throw (Error (msg_only_entities i))
          | entity =>
              match current ctx with
              | None => Throw (TypeError "Cannot read property 'sealed' of null")
              | Some cur =>
                  if negb (sealed cur) then
                    Ok {| annotation := Some entity;
                          current := Some {| title := None;
                                             ref := Some (RefArr (intoArray (ref cur) ++ [Some r]));
                                             meta := "";
                                             doc := "";
                                             multi := true;
                                             sealed := false |};
                          ast := ast ctx |}
                  else Throw (Error (msg_not_immediate i))
              end
          end
      | None =>
          Ok {| annotation := Some entity;
                current := Some {| title := None; ref := Some (RefStr r);
                                   meta := ""; doc := ""; multi := false; sealed := false |};
                ast := append (ast ctx) (current ctx) |}
      end
  | Guide t =>
      match annotation ctx with
      | Some _ => Throw (Error (msg_guides i))
      | None =>
          Ok {| annotation := Some guide;
                current := Some {| title := Some t; ref := None;
                                   meta := ""; doc := ""; multi := false; sealed := false |};
                ast := ast ctx |}
      end
  | Separator =>
      match current ctx with
      | None => Throw (Error (msg_separator i))
      | Some _ =>
          Ok {| annotation := None; current := current ctx; ast := ast ctx |}
      end
  | EOF =>
      Ok {| annotation := None; current := None; ast := append (ast ctx) (current ctx) |}
  | Line line =>
      match current ctx with
      | None => Throw (Error (msg_documentation i))
      | Some cur =>
          match annotation ctx with
          | Some a =>
              Ok {| annotation := Some a;
                    current := Some {| title := title cur; ref := ref cur;
                                       meta := meta cur ++ nl ++ line;
                                       doc := doc cur;
                                       multi := multi cur;
                                       sealed := true |};
                    ast := ast ctx |}
          | None =>
              Ok {| annotation := None;
                    current := Some {| title := title cur; ref := ref cur;
                                       meta := meta cur;
                                       doc := doc cur ++ nl ++ line;
                                       multi := multi cur;
                                       sealed := true |};
                    ast := ast ctx |}
          end
      end
  end.

(** [nodes.reduce(step, ctx)], the index starting at [i]. *)
Fixpoint reduce (ctx : Ctx) (nodes : list Node) (i : nat) : result Ctx :=
  match nodes with
  | [] => Ok ctx
  | node :: rest => ctx' <- step ctx node i ;; reduce ctx' rest (S i)
  end.

Definition init : Ctx := {| annotation := None; current := None; ast := [] |}.

Definition parse (source : string) : result (list Annot) :=
  nodes <- mapM classifyLine (split re_newline source) ;;
  ctx <- reduce init (append nodes (Some EOF)) 0 ;;
  Ok (ast ctx).

(** Text of several lines: each line but the last is followed by a line feed. *)
Fixpoint lines (ls : list string) : string :=
  match ls with
  | [] => ""
  | [l] => l
  | l :: rest => l ++ nl ++ lines rest
  end.

(* ------------------------------------------------------------------ *)
(** ** Values and syntax trees *)

(** The syntax nodes the tool builds through [babel-types], and the two
    statement forms it inspects. *)
Inductive Expr : Type :=
| StringLiteral (value : string)
| BooleanLiteral (value : bool)
| NumericLiteral (value : float)
| ArrayExpression (elements : list Expr)
| ObjectExpression (properties : list (string * Expr))
| FunctionExpression (body : list Statement)
with Statement : Type :=
| ExpressionStatement (expression : Expr)
| ReturnStatement (argument : Expr).

(** A parsed file: [ast.program.body]. *)
Record Program : Type := mkProgram { body : list Statement }.

(** The values metadata is made of.  An object is the list of its own
    properties in insertion order; an array also carries the named
    properties assigned to it. *)
Inductive Value : Type :=
| VUndefined
| VNull
| VBool (b : bool)
| VNum (n : float)
| VStr (s : string)
| VArr (items : list Value) (named : list (string * Value))
| VObj (props : list (string * Value))
| VRaw (value : Expr).

Definition Obj : Type := list (string * Value).

(** Truthiness, as tested by [?:], [||] and [if]. *)
Definition truthy (v : Value) : bool :=
  match v with
  | VUndefined | VNull => false
  | VBool b => b
  | VNum n => negb (PrimFloat.eqb n 0 || PrimFloat.is_nan n)
  | VStr s => negb (String.eqb s "")
  | VArr _ _ | VObj _ | VRaw _ => true
  end.

(** [object[key]] on own properties. *)
Fixpoint get (o : Obj) (key : string) : Value :=
  match o with
  | [] => VUndefined
  | (k, v) :: rest => if String.eqb k key then v else get rest key
  end.

(** [pairs(object)]: the own properties, as the list they already are. *)
Definition pairs (o : Obj) : list (string * Value) := o.

(** [object[key] = v]: an existing property keeps its place. *)
Fixpoint set (o : Obj) (key : string) (v : Value) : Obj :=
  match o with
  | [] => [(key, v)]
  | (k, w) :: rest =>
      if String.eqb k key then (k, v) :: rest else (k, w) :: set rest key v
  end.

(** [Object.assign(target, source)] *)
Definition assign (target source : Obj) : Obj :=
  fold_left (fun acc kv => set acc (fst kv) (snd kv)) source target.

(** [merge(...args)] *)
Definition merge (args : list Obj) : Obj := fold_left assign args [].

(* ------------------------------------------------------------------ *)
(** ** Example mining *)

(** The block tokens of [marked.lexer], by [type]: the three the miner
    looks at, and [Other] for every other type. *)
Inductive Token : Type :=
| Heading (text : string)
| Paragraph (text : string)
| Code (text : string)
| Other.

Record Example : Type := mkExample {
  name : option string;
  source : string
}.

(** [/::\s*$/] *)
Definition re_leading : re := Cat (lit "::") (Cat (Star space) Eol).

Definition isExampleLeadingParagraph (node : Token) : bool :=
  match node with
  | Paragraph text | Heading text => test false re_leading text
  | _ => false
  end.

(** [xs.join(sep)] *)
Fixpoint join (sep : string) (xs : list string) : string :=
  match xs with
  | [] => ""
  | [x] => x
  | x :: rest => x ++ sep ++ join sep rest
  end.

(** The accumulator of the fold in [collectExamples]:
    [[examples, current, heading, nextNodeIsExample]]. *)
Definition MinerState : Type :=
  (list Example * list string * option string * bool)%type.

Definition collectStep (st : MinerState) (node : Token) : MinerState :=
  let '(examples, cur, heading, nextNodeIsExample) := st in
  match node with
  | Code text =>
      if nextNodeIsExample then (examples, (cur ++ [text])%list, heading, false)
      else (examples, cur, heading, false)
  | Heading text =>
      ((examples ++ [{| name := heading; source := join (nl ++ nl) cur |}])%list,
       [], Some text, isExampleLeadingParagraph node)
  | Paragraph _ => (examples, cur, heading, isExampleLeadingParagraph node)
  | Other => (examples, cur, heading, false)
  end.

(** [collectExamples] after [marked.lexer]: from the token list on. *)
Definition collectTokens (tokens : list Token) : list Example :=
  let '(xs, x, heading, _) := fold_left collectStep tokens ([], [], None, false) in
  match x with
  | [] => xs
  | _ => (xs ++ [{| name := heading; source := join (nl ++ ";" ++ nl) x |}])%list
  end.

(* ------------------------------------------------------------------ *)
(** ** Metadata inference *)

Definition inferDeprecated (m : Obj) : Obj :=
  if truthy (get m "deprecated") then merge [m; [("stability", VStr "deprecated")]]
  else m.

Definition inferMetadataFromProvidedMetadata (m : Obj) : Obj := inferDeprecated m.

(** [/^::$/gm] *)
Definition re_marker_line : re := Cat Bol (Cat (lit "::") Eol).

(** [/::[ \t]*$/gm] *)
Definition re_marker_tail : re := Cat (lit "::") (Cat (Star blank) Eol).

(** The text [mergeMeta] stores back into [fullMeta.documentation]:
    [doc.replace(/^::$/gm, '').replace(/::[ \t]*$/gm, ':')]. *)
Definition rewriteDocumentation (d : string) : string :=
  replace_all true re_marker_tail ":" (replace_all true re_marker_line "" d).

(* ------------------------------------------------------------------ *)
(** ** Analysis and code generation *)

(** One element of the array [analyse] returns. *)
Record Unit : Type := mkUnit {
  unit_title : option string;
  unit_ref : option RefVal;
  unit_meta : Value
}.

Definition lazy (expr : Expr) : Expr :=
  FunctionExpression [ReturnStatement expr].

(** [t.assertExpressionStatement(node)] followed by [node.expression]. *)
Definition expressionOf (node : option Statement) : result Expr :=
  match node with
  | Some (ExpressionStatement e) => Ok e
  | _ => Throw (TypeError "Expected type ExpressionStatement")
  end.

Section External.

(** The libraries and the runtime the tool calls into. *)

(** [yaml.safeLoad] *)
Variable safeLoad : string -> result Value.

(** [marked.lexer] *)
Variable lexer : string -> list Token.

(** The members a plain object inherits from [Object.prototype], as
    functions of one argument producing what ends up in a node slot;
    [None] for a name that is not inherited. *)
Variable inherited : string -> option (Value -> result Expr).

(** [meta.documentation = doc]: stored on an object or an array, ignored
    on a primitive (the tool is not in strict mode), and a throw on [null]
    and [undefined].  The loader yields no [Raw] instance; one is left as
    it is, its only property read anywhere being [value]. *)
Definition setDocumentation (m : Value) (d : string) : result Value :=
  match m with
  | VObj props => Ok (VObj (set props "documentation" (VStr d)))
  | VArr items named => Ok (VArr items (set named "documentation" (VStr d)))
  | VUndefined | VNull =>
      Throw (TypeError "Cannot set property 'documentation'")
  | _ => Ok m
  end.

Definition parseMeta (e : Annot) : result (list Unit) :=
  loaded <- safeLoad (meta e) ;;
  m <- setDocumentation (if truthy loaded then loaded else VObj []) (doc e) ;;
  if multi e then
    match ref e with
    | Some (RefArr items) =>
        Ok (map (fun r => {| unit_title := None;
                             unit_ref := option_map RefStr r;
                             unit_meta := m |}) items)
    | _ => Throw (TypeError "entity.ref.map is not a function")
    end
  else
    Ok [{| unit_title := title e; unit_ref := ref e; unit_meta := m |}].

(** [flatten(entities.map(parseMeta))] *)
Definition analyse (entities : list Annot) : result (list Unit) :=
  units <- mapM parseMeta entities ;; Ok (flatten units).

Definition collectExamples (documentation : string) : list Example :=
  collectTokens (lexer documentation).

(** [parse(value)] inside the special parser: [parse] starts with
    [source.split], which only a string has. *)
Definition parseValue (value : Value) : result (list Annot) :=
  match value with
  | VStr s => parse s
  | _ => Throw (TypeError "source.split is not a function")
  end.

(** [ast.program] where [ast] is the array [parse] returned: an array
    owns its indices and [length], so the property is [undefined]. *)
Definition programOf (ast : list Annot) : option Program := None.

(** [p.body[0]]; reading [body] off [undefined] throws. *)
Definition body0 (p : option Program) : result (option Statement) :=
  match p with
  | Some p' => Ok (hd_error (body p'))
  | None => Throw (TypeError "Cannot read property 'body' of undefined")
  end.

(** [specialParsers['~belongsTo']] *)
Definition belongsTo (value : Value) : result Expr :=
  ast <- parseValue value ;;
  node <- body0 (programOf ast) ;;
  expr <- expressionOf node ;;
  Ok (lazy expr).

(** [key && key in specialParsers] *)
Definition isSpecial (key : option string) : bool :=
  match key with
  | None => false
  | Some k =>
      negb (String.eqb k "")
      && (String.eqb k "~belongsTo"
          || match inherited k with Some _ => true | None => false end)
  end.

(** [specialParsers[key](value)] *)
Definition parseSpecialProperty (value : Value) (key : string) : result Expr :=
  if String.eqb key "~belongsTo" then belongsTo value
  else match inherited key with
       | Some f => f value
       | None => Throw (TypeError "specialParsers[key] is not a function")
       end.

Fixpoint valueToLiteral (value : Value) (key : option string) : result Expr :=
  match value with
  | VRaw e => Ok e
  | VArr items _ =>
      es <- mapM (fun x => valueToLiteral x None) items ;;
      Ok (ArrayExpression es)
  | _ =>
      if isSpecial key then
        match key with
        | Some k => parseSpecialProperty value k
        | None => Throw (TypeError "specialParsers[key] is not a function")
        end
      else
        match value with
        | VStr s => Ok (StringLiteral s)
        | VBool b => Ok (BooleanLiteral b)
        | VNum n => Ok (NumericLiteral n)
        | VObj props =>
            ps <- mapM (fun kv => e <- valueToLiteral (snd kv) (Some (fst kv)) ;;
                                  Ok (fst kv, e)) props ;;
            Ok (ObjectExpression ps)
        | _ => Throw (TypeError "Type of property not supported")
        end
  end.

(** [pairToProperty]: the property [t.objectProperty(t.stringLiteral(key), ...)]
    as the pair of its key and its value node. *)
Definition pairToProperty (kv : string * Value) : result (string * Expr) :=
  e <- valueToLiteral (snd kv) (Some (fst kv)) ;; Ok (fst kv, e).

Definition objectToExpression (object : Obj) : result Expr :=
  ps <- mapM pairToProperty (pairs object) ;; Ok (ObjectExpression ps).

End External.

(* ------------------------------------------------------------------ *)
(** ** Vocabulary of the statements *)

(** What a run of plain lines does to the current record. *)
Definition metaLine (r : Annot) (l : string) : Annot :=
  {| title := title r; ref := ref r; meta := meta r ++ nl ++ l; doc := doc r;
     multi := multi r; sealed := true |}.

Definition docLine (r : Annot) (l : string) : Annot :=
  {| title := title r; ref := ref r; meta := meta r; doc := doc r ++ nl ++ l;
     multi := multi r; sealed := true |}.

(** The text a run of lines adds: a line feed before each line. *)
Fixpoint block (ls : list string) : string :=
  match ls with
  | [] => ""
  | l :: rest => nl ++ l ++ block rest
  end.

(** The states the fold can reach keep two facts: a phase implies a
    current record, and an unsealed record has no text yet. *)
Definition wellFormed (ctx : Ctx) : Prop :=
  (annotation ctx <> None -> current ctx <> None)
  /\ (forall r, current ctx = Some r -> sealed r = false -> meta r = "" /\ doc r = "").

(** A documentation text of the shape "heading ending in [::], two fenced
    blocks, heading", and the tokens [marked] gives it. *)
Definition sampleDocumentation : string :=
  lines ["# Example::"; ""; "```"; "a"; "```"; ""; "```"; "b"; "```"; ""; "# Next"].

Definition sampleLexer (d : string) : list Token :=
  if String.eqb d sampleDocumentation
  then [Heading "Example::"; Code "a"; Code "b"; Heading "Next"]
  else [].

(** *** Lines of a documentation text *)

(** [/:::[ \t]*$/m]: some line ends in three colons, then spaces or tabs. *)
Definition re_triple : re := Cat (lit ":::") (Cat (Star blank) Eol).

(** The text holds no line terminator: it is one line. *)
Fixpoint oneLine (s : string) : bool :=
  match s with
  | EmptyString => true
  | String c s' => negb (is_lt c) && oneLine s'
  end.

Fixpoint allBlank (s : string) : bool :=
  match s with
  | EmptyString => true
  | String c s' => blank c && allBlank s'
  end.

Definition is_colon (c : ascii) : bool := Ascii.eqb ":" c.

(** The line is exactly [::]. *)
Definition exact2 (s : string) : bool :=
  match s with
  | String a (String b EmptyString) => is_colon a && is_colon b
  | _ => false
  end.

(** The line is [::] followed by spaces and tabs only. *)
Definition tail2 (s : string) : bool :=
  match s with
  | String a (String b t) => is_colon a && is_colon b && allBlank t
  | _ => false
  end.

(** The line is [:::] followed by spaces and tabs only. *)
Definition tail3 (s : string) : bool :=
  match s with
  | String a (String b (String c t)) =>
      is_colon a && is_colon b && is_colon c && allBlank t
  | _ => false
  end.

(** What the rewrite makes of one line: a closing [::] with its trailing
    blanks becomes [:]. *)
Fixpoint tailfix (s : string) : string :=
  match s with
  | EmptyString => ""
  | String c s' => if tail2 s then ":" else String c (tailfix s')
  end.

Definition rewriteLine (s : string) : string :=
  if exact2 s then "" else tailfix s.

(** No suffix of the line is [:::] followed by blanks. *)
Fixpoint tripleFree (s : string) : bool :=
  match s with
  | EmptyString => true
  | String c s' => negb (tail3 s) && tripleFree s'
  end.

(** Patterns that never read a line terminator: literal characters other
    than terminators, classes that exclude them, anchors. *)
Fixpoint lineLocal (r : re) : Prop :=
  match r with
  | Eps | Bol | Eol => True
  | Chr c => is_lt c = false
  | Star p | Plus p => forall c, is_lt c = true -> p c = false
  | Grp _ => False
  | Cat r1 r2 | Alt r1 r2 => lineLocal r1 /\ lineLocal r2
  end.

(** Appending the rest of the text to the outcome of a match on a line. *)
Definition extend (tl : string) (o : option (string * list string))
  : option (string * list string) :=
  match o with
  | Some (s, caps) => Some (s ++ tl, caps)
  | None => None
  end.

(** The two replacements of [rewriteDocumentation], started in the middle
    of a text, after the character [prev]. *)
Definition rewriteFrom (prev : option ascii) (d : string) : string :=
  replace_from true re_marker_tail ":" 0 prev
               (replace_from true re_marker_line "" 0 prev d).

(** Two continuations agree when running the first on a line followed by
    [tl] is running the second on the line alone. *)
Definition agree (tl : string) (k k' : cont) : Prop :=
  forall p s c, oneLine s = true -> k p (s ++ tl) c = extend tl (k' p s c).

(* ------------------------------------------------------------------ *)
(** ** Vocabulary of the further properties *)

(** *** Documents made of blocks *)

(** One well-formed block of a document: one or more entity directives
    back to back, the metadata lines, a separator, the documentation
    lines. *)
Record Block : Type := mkBlock {
  blockRef : string;
  blockMore : list string;
  blockMeta : list string;
  blockDoc : list string
}.

Definition blockNodes (b : Block) : list Node :=
  (Entity (blockRef b) :: map Entity (blockMore b)
     ++ map Line (blockMeta b) ++ Separator :: map Line (blockDoc b))%list.

Definition blockRecord (b : Block) : Annot :=
  {| title := None;
     ref := Some match blockMore b with
                 | [] => RefStr (blockRef b)
                 | more => RefArr (map Some (blockRef b :: more))
                 end;
     meta := block (blockMeta b);
     doc := block (blockDoc b);
     multi := match blockMore b with [] => false | _ => true end;
     sealed := match blockMeta b, blockDoc b with [], [] => false | _, _ => true end |}.

(** The record the grouping transition makes of [r] and one more reference. *)
Definition groupWith (r : Annot) (x : string) : Annot :=
  {| title := None; ref := Some (RefArr (intoArray (ref r) ++ [Some x])%list);
     meta := ""; doc := ""; multi := true; sealed := false |}.

(** *** Shape of the records *)

Definition isSome {A : Type} (o : option A) : bool :=
  match o with Some _ => true | None => false end.

(** An entity record: no title, and either one reference and [multi]
    unset, or an array of two or more references and [multi] set. *)
Definition entityShaped (r : Annot) : bool :=
  match title r, ref r with
  | None, Some (RefStr _) => negb (multi r)
  | None, Some (RefArr items) =>
      multi r && Nat.leb 2 (length items) && forallb isSome items
  | _, _ => false
  end.

(** A guide record: a title, no reference, [multi] unset. *)
Definition guideShaped (r : Annot) : bool :=
  match title r, ref r with
  | Some _, None => negb (multi r)
  | _, _ => false
  end.

Definition shaped (r : Annot) : bool := entityShaped r || guideShaped r.

(** The sealed flag tells whether the record has text. *)
Definition sealedIffText (r : Annot) : Prop :=
  sealed r = false <-> (meta r = "" /\ doc r = "").

Definition recordOk (r : Annot) : Prop := shaped r = true /\ sealedIffText r.

Definition ctxOk (ctx : Ctx) : Prop :=
  Forall recordOk (ast ctx)
  /\ match current ctx with
     | Some r =>
         recordOk r
         /\ match annotation ctx with
            | Some entity => entityShaped r = true
            | Some guide => guideShaped r = true
            | None => True
            end
     | None => annotation ctx = None
     end.

(** Number of units [parseMeta] makes of a record. *)
Definition refCount (r : Annot) : nat :=
  if multi r then
    match ref r with
    | Some (RefArr items) => length items
    | _ => 0
    end
  else 1.

(** The five messages of the structural parser, for the node of index [i]. *)
Definition structuralMessage (m : string) (i : nat) : Prop :=
  m = msg_only_entities i \/ m = msg_not_immediate i \/ m = msg_guides i
  \/ m = msg_separator i \/ m = msg_documentation i.

(** *** Lines and terminators *)

(** The four line terminators [parse] splits at. *)
Definition terminatorTexts : list string :=
  [String LF ""; String CR (String LF ""); String LF (String CR ""); String CR ""].

(** The text starts with the character [c]. *)
Definition headIs (c : ascii) (s : string) : bool :=
  match s with
  | String x _ => Ascii.eqb c x
  | EmptyString => false
  end.

(** *** Reading a directive or a separator off one line *)

(** The character before the position reached by reading [p]. *)
Fixpoint afterText (prev : option ascii) (p : string) : option ascii :=
  match p with
  | EmptyString => prev
  | String c p' => afterText (Some c) p'
  end.

Fixpoint allSpace (s : string) : bool :=
  match s with
  | EmptyString => true
  | String c s' => space c && allSpace s'
  end.

Fixpoint dropSpaces (s : string) : string :=
  match s with
  | EmptyString => ""
  | String c s' => if space c then dropSpaces s' else s
  end.

Fixpoint lastChar (s : string) : string :=
  match s with
  | EmptyString => ""
  | String c EmptyString => String c ""
  | String _ s' => lastChar s'
  end.

(** The argument of a directive: what follows the leading white space,
    up to the end of the line; of white space alone, the last character. *)
Definition refText (rest : string) : string :=
  match dropSpaces rest with
  | EmptyString => lastChar rest
  | body => body
  end.

Fixpoint dropDashes (s : string) : string :=
  match s with
  | EmptyString => ""
  | String c s' => if is_char "-" c then dropDashes s' else s
  end.

(** Three or more dashes, then white space only. *)
Definition isSeparatorLine (l : string) : bool :=
  match l with
  | String a (String b (String c t)) =>
      is_char "-" a && is_char "-" b && is_char "-" c && allSpace (dropDashes t)
  | _ => false
  end.

(** The text is [::] followed by white space only. *)
Definition markerTail (s : string) : bool :=
  match s with
  | String a (String b t) => is_colon a && is_colon b && allSpace t
  | _ => false
  end.

(** The text ends in [::], white space aside. *)
Fixpoint endsInMarker (s : string) : bool :=
  match s with
  | EmptyString => false
  | String _ s' => markerTail s || endsInMarker s'
  end.

(** *** Mining examples *)

(** The end of [collectExamples]: the entry for what is still held. *)
Definition finishMining (st : MinerState) : list Example :=
  let '(xs, x, heading, _) := st in
  match x with
  | [] => xs
  | _ => (xs ++ [{| name := heading; source := join (nl ++ ";" ++ nl) x |}])%list
  end.

(** The miner started under the heading [heading], the marker flag being [flag]. *)
Definition collectFrom (heading : option string) (flag : bool) (tokens : list Token)
  : list Example :=
  finishMining (fold_left collectStep tokens ([], [], heading, flag)).

Definition isHeading (t : Token) : bool :=
  match t with Heading _ => true | _ => false end.

(** The code blocks taken up to the next heading: each one that comes
    directly after a marker, the first one also when [flag] is set. *)
Fixpoint captured (flag : bool) (tokens : list Token) : list string :=
  match tokens with
  | [] => []
  | Code text :: rest => ((if flag then [text] else []) ++ captured false rest)%list
  | Paragraph text :: rest => captured (isExampleLeadingParagraph (Paragraph text)) rest
  | Other :: rest => captured false rest
  | Heading _ :: _ => []
  end.

(** *** Objects *)

(** [key in object], for own properties. *)
Definition has (o : Obj) (key : string) : bool :=
  existsb (fun kv => String.eqb (fst kv) key) o.

(** [Object.keys(object)] *)
Definition keys (o : Obj) : list string := map fst o.

(** *** Literals *)

(** The value a literal node denotes. *)
Fixpoint literalValue (e : Expr) : Value :=
  match e with
  | StringLiteral s => VStr s
  | BooleanLiteral b => VBool b
  | NumericLiteral n => VNum n
  | ArrayExpression es => VArr (map literalValue es) []
  | ObjectExpression ps => VObj (map (fun kv => (fst kv, literalValue (snd kv))) ps)
  | FunctionExpression _ => VRaw e
  end.

(** Plain data: strings, booleans, numbers, arrays of plain data without
    named properties, and objects of plain data none of whose keys is
    special. *)
Fixpoint plainData (inherited : string -> option (Value -> result Expr)) (v : Value) : bool :=
  match v with
  | VBool _ | VNum _ | VStr _ => true
  | VArr items named =>
      forallb (plainData inherited) items && match named with [] => true | _ => false end
  | VObj props =>
      forallb (fun kv => negb (isSpecial inherited (Some (fst kv)))
                         && plainData inherited (snd kv)) props
  | VUndefined | VNull | VRaw _ => false
  end.

(** *** More on the documentation rewrite *)

(** The line terminators of a text, in order. *)
Fixpoint terminators (s : string) : list ascii :=
  match s with
  | EmptyString => []
  | String c s' => if is_lt c then c :: terminators s' else terminators s'
  end.

(** No suffix of the line is [::] followed by blanks. *)
Fixpoint markerFree (s : string) : bool :=
  match s with
  | EmptyString => true
  | String c s' => negb (tail2 s) && markerFree s'
  end.

(* ------------------------------------------------------------------ *)
(** ** The runtime helper [__metamagical_withMeta]

    The helper keeps the metadata of an object in a property named by a
    symbol and mutates the metadata object it finds there.  Metadata
    objects live in a heap and are named by their index, so that the test
    [parent[sym] === oldMeta] is the comparison of two indices.  Of the
    annotated object the helper reads two things only, which make up a
    [Target]: its own metadata property, and what the same property reads
    as on its prototype. *)

Definition Heap : Type := list Obj.

Record Target : Type := mkTarget {
  ownMeta : option nat;
  (** [None]: no prototype; [Some None]: the property is [undefined] on
      the prototype; [Some (Some l)]: it is the metadata object [l]. *)
  protoMeta : option (option nat)
}.

(** [object[sym]]: the own property, else the one of the prototype. *)
Definition readMeta (t : Target) : option nat :=
  match ownMeta t with
  | Some l => Some l
  | None => match protoMeta t with Some m => m | None => None end
  end.

(** [/^~/] *)
Definition re_tilde : re := Cat Bol (Chr "~").

(** [key.slice(1)] *)
Definition slice1 (key : string) : string :=
  match key with
  | EmptyString => ""
  | String _ rest => rest
  end.

(** The name a key of [meta] is stored under. *)
Definition storedKey (key : string) : string :=
  if test false re_tilde key then slice1 key else key.

(** The [forEach] over [Object.keys(meta)], on the contents of [oldMeta]. *)
Definition storeAll (oldMeta meta : Obj) : Obj :=
  fold_left (fun acc key => set acc (storedKey key) (get meta key)) (keys meta) oldMeta.

Fixpoint updateAt (h : Heap) (l : nat) (o : Obj) : Heap :=
  match h, l with
  | [], _ => []
  | _ :: rest, 0 => o :: rest
  | x :: rest, S l' => x :: updateAt rest l' o
  end.

(** The metadata object found is dropped for a new empty one when there
    is none, and when it is the very object the prototype holds. *)
Definition startsAfresh (t : Target) : bool :=
  match readMeta t with
  | None => true
  | Some l =>
      match protoMeta t with
      | Some (Some l') => Nat.eqb l' l
      | _ => false
      end
  end.

Definition __metamagical_withMeta (h : Heap) (t : Target) (meta : Obj) : Heap * Target :=
  let '(h1, l) :=
    match readMeta t, startsAfresh t with
    | Some l, false => (h, l)
    | _, _ => ((h ++ [[]])%list, length h)
    end in
  (updateAt h1 l (storeAll (nth l h1 []) meta),
   {| ownMeta := Some l; protoMeta := protoMeta t |}).

(** *** Guides and units of documents made of blocks *)

(** The record of a guide block: a [@guide:] line, metadata lines, a
    separator, documentation lines. *)
Definition guideRecord (t : string) (ms ds : list string) : Annot :=
  {| title := Some t; ref := None; meta := block ms; doc := block ds;
     multi := false;
     sealed := match ms, ds with [], [] => false | _, _ => true end |}.

Definition guideNodes (t : string) (ms ds : list string) : list Node :=
  (Guide t :: map Line ms ++ Separator :: map Line ds)%list.

(** The units of a block whose fields are [f]: one per reference. *)
Definition blockUnits (b : Block) (f : Value) : list Unit :=
  map (fun r => {| unit_title := None; unit_ref := Some (RefStr r); unit_meta := f |})
      (blockRef b :: blockMore b).

(** [f] is the fields value of block [b]: the loaded metadata, or the
    empty object for a falsy load, with [documentation] set. *)
Definition fieldsOf (safeLoad : string -> result Value) (b : Block) (f : Value) : Prop :=
  exists loaded,
    safeLoad (block (blockMeta b)) = Ok loaded
    /\ setDocumentation (if truthy loaded then loaded else VObj []) (block (blockDoc b))
       = Ok f.

(** The line starts with the text [p]. *)
Fixpoint startsWith (p s : string) : bool :=
  match p, s with
  | EmptyString, _ => true
  | String a p', String b s' => Ascii.eqb a b && startsWith p' s'
  | String _ _, EmptyString => false
  end.

(* ------------------------------------------------------------------ *)
(** * Properties *)

(** ** Generic facts about the exception monad and the fold *)

Lemma mapM_cons {A B : Type} (f : A -> result B) (x : A) (xs : list A) :
  mapM f (x :: xs) = (y <- f x ;; ys <- mapM f xs ;; Ok (y :: ys)).
Proof. reflexivity. Qed.

Lemma mapM_app {A B : Type} (f : A -> result B) (xs ys : list A) :
  mapM f (xs ++ ys)%list
  = (xs' <- mapM f xs ;; ys' <- mapM f ys ;; Ok (xs' ++ ys')%list).
Proof.
  induction xs as [|x xs IH].
  - simpl. destruct (mapM f ys); reflexivity.
  - rewrite <- app_comm_cons, !mapM_cons.
    destruct (f x) as [y|e]; simpl; [|reflexivity].
    fold (mapM f (xs ++ ys)%list). fold (mapM f xs). rewrite IH.
    destruct (mapM f xs); simpl; [|reflexivity].
    destruct (mapM f ys); reflexivity.
Qed.

Lemma mapM_Forall {A B : Type} (f : A -> result B) (g : A -> B) (xs : list A) :
  Forall (fun x => f x = Ok (g x)) xs -> mapM f xs = Ok (map g xs).
Proof.
  induction 1 as [|x xs Hx _ IH]; [reflexivity|].
  rewrite mapM_cons, Hx. simpl. fold (mapM f xs). rewrite IH. reflexivity.
Qed.

Lemma reduce_app (xs ys : list Node) : forall ctx i,
  reduce ctx (xs ++ ys) i
  = (ctx' <- reduce ctx xs i ;; reduce ctx' ys (i + length xs)).
Proof.
  induction xs as [|x xs IH]; intros ctx i; simpl.
  - rewrite Nat.add_0_r. reflexivity.
  - destruct (step ctx x i) as [c|e]; simpl; [|reflexivity].
    rewrite IH. replace (S i + length xs) with (i + S (length xs)) by lia.
    reflexivity.
Qed.

Lemma append_assoc (a b c : string) : (a ++ b) ++ c = a ++ (b ++ c).
Proof. induction a as [|x a IH]; simpl; [reflexivity|]. now rewrite IH. Qed.

Lemma append_nil_r (a : string) : a ++ "" = a.
Proof. induction a as [|x a IH]; simpl; [reflexivity|]. now rewrite IH. Qed.

(** ** The structural parser *)


Lemma reduce_meta_lines (ls : list string) : forall ph r done i,
  reduce {| annotation := Some ph; current := Some r; ast := done |} (map Line ls) i
  = Ok {| annotation := Some ph; current := Some (fold_left metaLine ls r); ast := done |}.
Proof.
  induction ls as [|l ls IH]; intros ph r done i; simpl; [reflexivity|].
  apply IH.
Qed.

Lemma reduce_doc_lines (ls : list string) : forall r done i,
  reduce {| annotation := None; current := Some r; ast := done |} (map Line ls) i
  = Ok {| annotation := None; current := Some (fold_left docLine ls r); ast := done |}.
Proof.
  induction ls as [|l ls IH]; intros r done i; simpl; [reflexivity|].
  apply IH.
Qed.

Lemma fold_metaLine (ls : list string) : forall r,
  fold_left metaLine ls r
  = {| title := title r; ref := ref r; meta := meta r ++ block ls; doc := doc r;
       multi := multi r;
       sealed := match ls with [] => sealed r | _ => true end |}.
Proof.
  induction ls as [|l ls IH]; intros r; simpl.
  - rewrite append_nil_r. destruct r; reflexivity.
  - rewrite IH. simpl. rewrite !append_assoc. simpl.
    destruct ls; reflexivity.
Qed.

Lemma fold_docLine (ls : list string) : forall r,
  fold_left docLine ls r
  = {| title := title r; ref := ref r; meta := meta r; doc := doc r ++ block ls;
       multi := multi r;
       sealed := match ls with [] => sealed r | _ => true end |}.
Proof.
  induction ls as [|l ls IH]; intros r; simpl.
  - rewrite append_nil_r. destruct r; reflexivity.
  - rewrite IH. simpl. rewrite !append_assoc. simpl.
    destruct ls; reflexivity.
Qed.


Lemma wellFormed_init : wellFormed init.
Proof. split; simpl; [congruence | discriminate]. Qed.

Lemma wellFormed_step ctx node i ctx' :
  wellFormed ctx -> step ctx node i = Ok ctx' -> wellFormed ctx'.
Proof.
  intros [Hcur Hun] H. destruct ctx as [a c done]. simpl in *.
  destruct node; simpl in H.
  - destruct a as [[|]|].
    + destruct c as [cur|]; [|discriminate].
      destruct (sealed cur); simpl in H; [discriminate|].
      injection H as <-. split; simpl; [discriminate|].
      intros r [= <-] _. auto.
    + discriminate.
    + injection H as <-. split; simpl; [discriminate|].
      intros r [= <-] _. auto.
  - destruct a; [discriminate|]. injection H as <-. split; simpl; [discriminate|].
    intros r [= <-] _. auto.
  - destruct c as [cur|]; [|discriminate]. injection H as <-.
    split; simpl; [congruence | exact Hun].
  - injection H as <-. split; simpl; [congruence | discriminate].
  - destruct c as [cur|]; [|discriminate].
    destruct a; injection H as <-; (split; simpl; [discriminate|]);
      intros r [= <-]; simpl; discriminate.
Qed.

Lemma wellFormed_reduce nodes : forall ctx i ctx',
  wellFormed ctx -> reduce ctx nodes i = Ok ctx' -> wellFormed ctx'.
Proof.
  induction nodes as [|n nodes IH]; intros ctx i ctx' Hwf H; simpl in H.
  - injection H as <-. exact Hwf.
  - destruct (step ctx n i) as [c|e] eqn:Hs; simpl in H; [|discriminate].
    eapply IH; [|exact H]. eapply wellFormed_step; eassumption.
Qed.

(** The grouping transition is the only one that rebuilds a record without
    copying its text; it starts from an unsealed record. *)
Lemma step_grouping_source ctx x i ctx' :
  annotation ctx = Some entity -> step ctx (Entity x) i = Ok ctx' ->
  exists old, current ctx = Some old /\ sealed old = false
    /\ current ctx' = Some {| title := None;
                              ref := Some (RefArr (intoArray (ref old) ++ [Some x])%list);
                              meta := ""; doc := ""; multi := true; sealed := false |}.
Proof.
  intros Ha H. unfold step in H. rewrite Ha in H.
  destruct (current ctx) as [old|]; [|discriminate].
  destruct (sealed old) eqn:Hs; simpl in H; [discriminate|].
  injection H as <-. exists old. auto.
Qed.

(** C9 — Invariant of the structural parser: in every state the fold
    reaches, a current record with [sealed = false] has empty metadata
    text and empty documentation text; hence the multi-reference grouping
    transition, which gives the new record empty texts, carries exactly
    the texts of the record it replaces and loses none. *)
Theorem unsealed_record_has_no_text (nodes : list Node) (ctx : Ctx) :
  reduce init nodes 0 = Ok ctx ->
  (forall r, current ctx = Some r -> sealed r = false -> meta r = "" /\ doc r = "")
  /\ (forall x i ctx',
        annotation ctx = Some entity -> step ctx (Entity x) i = Ok ctx' ->
        exists old new,
          current ctx = Some old /\ current ctx' = Some new
          /\ meta new = meta old /\ doc new = doc old).
Proof.
  intros Hrun.
  assert (Hwf : wellFormed ctx)
    by (eapply wellFormed_reduce; [apply wellFormed_init | exact Hrun]).
  destruct Hwf as [_ Hun]. split; [exact Hun|].
  intros x i ctx' Ha Hs.
  destruct (step_grouping_source _ _ _ _ Ha Hs) as (old & Hold & Hsealed & Hnew).
  destruct (Hun old Hold Hsealed) as [Hm Hd].
  exists old. eexists. split; [exact Hold|]. split; [exact Hnew|].
  simpl. split; congruence.
Qed.

Lemma unsealed_record_has_no_text_witness :
  let nodes := [Entity "a"] in
  let ctx := {| annotation := Some entity;
                current := Some {| title := None; ref := Some (RefStr "a"); meta := "";
                                   doc := ""; multi := false; sealed := false |};
                ast := [] |} in
  reduce init nodes 0 = Ok ctx
  /\ (forall r, current ctx = Some r -> sealed r = false -> meta r = "" /\ doc r = "")
  /\ (forall x i ctx',
        annotation ctx = Some entity -> step ctx (Entity x) i = Ok ctx' ->
        exists old new,
          current ctx = Some old /\ current ctx' = Some new
          /\ meta new = meta old /\ doc new = doc old).
Proof.
  intros nodes ctx. split; [reflexivity|].
  apply (unsealed_record_has_no_text nodes ctx). reflexivity.
Defined.

(** C10 — A separator line met while the phase is already null and a
    current record exists changes nothing: the state after the step has
    the same current record (reference, metadata text, documentation text
    and sealed flag), the same phase and the same completed records, and
    the text of the separator line appears nowhere. *)
Theorem separator_in_null_phase_keeps_record (l : string) (ctx : Ctx) (r : Annot) (i : nat) :
  classifyLine l = Ok Separator ->
  annotation ctx = None ->
  current ctx = Some r ->
  (node <- classifyLine l ;; step ctx node i) = Ok ctx
  /\ forall ctx', step ctx Separator i = Ok ctx' ->
       current ctx' = Some r /\ annotation ctx' = None /\ ast ctx' = ast ctx.
Proof.
  intros Hl Ha Hc. rewrite Hl. simpl. rewrite Hc.
  split.
  - destruct ctx as [a c done]. simpl in *. subst. reflexivity.
  - intros ctx' [= <-]. simpl. auto.
Qed.

Lemma separator_in_null_phase_keeps_record_witness :
  let r := {| title := None; ref := Some (RefStr "a"); meta := nl ++ "k: v";
              doc := nl ++ "text"; multi := false; sealed := true |} in
  let ctx := {| annotation := None; current := Some r; ast := [] |} in
  classifyLine "-----" = Ok Separator
  /\ (node <- classifyLine "-----" ;; step ctx node 4) = Ok ctx.
Proof.
  intros r ctx. split; [reflexivity|].
  apply (separator_in_null_phase_keeps_record "-----" ctx r 4); reflexivity.
Defined.

(** C1 — On a document whose entity record is followed by a guide
    directive, the guide handler starts the guide record without pushing
    the entity record: the output of the parser holds the guide record
    alone. *)
Theorem guide_directive_drops_previous_record :
  parse (lines ["@annotate: a"; "---"; "doc"; "@guide: G"; "---"; "text"])
  = Ok [{| title := Some "G"; ref := None; meta := ""; doc := nl ++ "text";
           multi := false; sealed := true |}].
Proof. vm_compute. reflexivity. Qed.

(** The same at the level of one step: in the null phase the guide handler
    returns the completed records as they were, whatever the current
    record was, while the entity handler appends it. *)
Lemma step_guide_keeps_ast ctx t i :
  annotation ctx = None ->
  exists ctx', step ctx (Guide t) i = Ok ctx' /\ ast ctx' = ast ctx.
Proof. intros Ha. unfold step. rewrite Ha. eexists. split; reflexivity. Qed.

Lemma step_entity_pushes_current ctx x i :
  annotation ctx = None ->
  exists ctx', step ctx (Entity x) i = Ok ctx' /\ ast ctx' = append (ast ctx) (current ctx).
Proof. intros Ha. unfold step. rewrite Ha. eexists. split; reflexivity. Qed.

(** C3 — On the line [@annotate:] with no argument text the classifier
    does not return a line kind: the head pattern matches, the full
    pattern does not, and indexing the failed match throws. *)
Theorem classifyLine_bare_directive_throws :
  classifyLine "@annotate:" = Throw (TypeError "Cannot read property '1' of null")
  /\ classifyLine "@guide:" = Throw (TypeError "Cannot read property '1' of null").
Proof. split; vm_compute; reflexivity. Qed.

(** Shared core: the special parser throws on every string. *)
Lemma belongsTo_string_throws_aux
      (inherited : string -> option (Value -> result Expr)) (s : string) :
  is_ok (valueToLiteral inherited (VStr s) (Some "~belongsTo")) = false.
Proof.
  cbn [valueToLiteral]. unfold isSpecial.
  replace (String.eqb "~belongsTo" "") with false by reflexivity.
  replace (String.eqb "~belongsTo" "~belongsTo") with true by reflexivity.
  cbn [negb andb orb]. unfold parseSpecialProperty.
  replace (String.eqb "~belongsTo" "~belongsTo") with true by reflexivity.
  unfold belongsTo, parseValue. destruct (parse s); reflexivity.
Qed.

(** C2 — A [~belongsTo] field holding a string is never emitted: the
    special parser hands the string to the structural parser [parse], whose
    result is either a throw or an array without a [program] property, so
    [valueToLiteral] throws for every string. *)
Theorem belongsTo_string_never_emitted
        (inherited : string -> option (Value -> result Expr)) (s : string) :
  is_ok (valueToLiteral inherited (VStr s) (Some "~belongsTo")) = false.
Proof. apply belongsTo_string_throws_aux. Qed.

(** The failure reaches the whole object: a mapping with such a field has
    no object expression. *)
Lemma objectToExpression_belongsTo_throws
      (inherited : string -> option (Value -> result Expr)) (o : Obj) (s : string) :
  In ("~belongsTo", VStr s) o -> is_ok (objectToExpression inherited o) = false.
Proof.
  unfold objectToExpression, pairs. induction o as [|kv o IH]; intros Hin; [destruct Hin|].
  rewrite mapM_cons. destruct Hin as [-> | Hin].
  - unfold pairToProperty at 1. cbn [fst snd].
    pose proof (belongsTo_string_throws_aux inherited s) as H.
    destruct (valueToLiteral inherited (VStr s) (Some "~belongsTo")); [discriminate|reflexivity].
  - destruct (pairToProperty inherited kv); [|reflexivity]. simpl.
    specialize (IH Hin). fold (mapM (pairToProperty inherited) o).
    destruct (mapM (pairToProperty inherited) o); [discriminate|reflexivity].
Qed.

Example belongsTo_sample :
  objectToExpression (fun _ => None) [("~belongsTo", VStr "folktale.core.lambda")]
  = Throw (Error "Documentation found before an entity annotation at line 1").
Proof. vm_compute. reflexivity. Qed.

(** Away from the two directive heads the classifier does return a line
    kind. *)
Lemma classifyLine_off_directives (line : string) :
  test false re_annotate_head line = false ->
  test false re_guide_head line = false ->
  classifyLine line = Ok Separator \/ classifyLine line = Ok (Line line).
Proof.
  intros Ha Hg. unfold classifyLine. rewrite Ha, Hg.
  destruct (test false re_separator line); auto.
Qed.

(** ** The sealing rule *)

(** Once a record in the entity phase has taken plain lines, the next
    entity directive is refused. *)
Lemma reduce_sealed_then_entity (plains : list string) (r : Annot) (done : list Annot)
      (b : string) (rest : list Node) (i : nat) :
  plains <> [] ->
  reduce {| annotation := Some entity; current := Some r; ast := done |}
         (map Line plains ++ Entity b :: rest) i
  = Throw (Error (msg_not_immediate (i + length plains))).
Proof.
  intros Hne. rewrite reduce_app, reduce_meta_lines. simpl.
  rewrite fold_metaLine. simpl. rewrite length_map.
  destruct plains; [congruence | reflexivity].
Qed.

Lemma reduce_entity_plains_entity (ctx : Ctx) (a b : string) (plains : list string)
      (rest : list Node) (i : nat) :
  plains <> [] ->
  exists e,
    reduce ctx (Entity a :: map Line plains ++ Entity b :: rest) i = Throw e
    /\ (wellFormed ctx -> annotation ctx <> Some guide ->
        exists j, e = Error (msg_not_immediate j)).
Proof.
  intros Hne. destruct ctx as [ph cur done]. cbn [reduce step annotation current ast].
  destruct ph as [[|]|].
  - destruct cur as [c|].
    + destruct (sealed c); cbn [negb bind].
      * eexists. split; [reflexivity|]. intros _ _. eexists. reflexivity.
      * rewrite reduce_sealed_then_entity by exact Hne.
        eexists. split; [reflexivity|]. intros _ _. eexists. reflexivity.
    + eexists. split; [reflexivity|]. intros [Hwf _] _. simpl in Hwf.
      exfalso. apply Hwf; [discriminate | reflexivity].
  - eexists. split; [reflexivity|]. intros _ Hg. simpl in Hg. congruence.
  - cbn [bind]. rewrite reduce_sealed_then_entity by exact Hne.
    eexists. split; [reflexivity|]. intros _ _. eexists. reflexivity.
Qed.

(** C6 — A document in which an [@annotate:] directive is followed by one
    or more plain lines and then by another [@annotate:] directive never
    parses into records.  When the lines before the first directive
    classify and fold without a throw into a state whose phase is not
    [guide], and the lines after the second directive classify, the throw
    is the error saying that multiple annotations have to follow each
    other immediately. *)
Theorem separated_directives_are_refused
        (src : string) (pre : list string) (la a : string) (plains : list string)
        (lb b : string) (post : list string) :
  split re_newline src = (pre ++ la :: plains ++ lb :: post)%list ->
  classifyLine la = Ok (Entity a) ->
  classifyLine lb = Ok (Entity b) ->
  plains <> [] ->
  Forall (fun l => classifyLine l = Ok (Line l)) plains ->
  is_ok (parse src) = false
  /\ (forall npre npost ctx,
        mapM classifyLine pre = Ok npre ->
        mapM classifyLine post = Ok npost ->
        reduce init npre 0 = Ok ctx ->
        annotation ctx <> Some guide ->
        exists j, parse src = Throw (Error (msg_not_immediate j))).
Proof.
  intros Hsplit Hla Hlb Hne Hpl.
  assert (Hnodes : forall npre npost,
            mapM classifyLine pre = Ok npre -> mapM classifyLine post = Ok npost ->
            parse src
            = (ctx <- reduce init npre 0 ;;
               ctx' <- reduce ctx (Entity a :: map Line plains
                                     ++ Entity b :: (npost ++ [EOF]))%list (0 + length npre) ;;
               Ok (ast ctx'))).
  { intros npre npost Hpre Hpost. unfold parse. rewrite Hsplit.
    rewrite mapM_app, Hpre. cbn [bind]. rewrite mapM_cons, Hla. cbn [bind].
    rewrite mapM_app, (mapM_Forall _ Line _ Hpl). cbn [bind].
    rewrite mapM_cons, Hlb. cbn [bind]. rewrite Hpost. cbn [bind append].
    rewrite <- app_assoc, reduce_app. cbn [app].
    rewrite <- app_assoc. cbn [app].
    destruct (reduce init npre 0); reflexivity. }
  split.
  - destruct (mapM classifyLine pre) as [npre|e] eqn:Hpre.
    2:{ unfold parse. rewrite Hsplit, mapM_app, Hpre. reflexivity. }
    destruct (mapM classifyLine post) as [npost|e] eqn:Hpost.
    2:{ unfold parse. rewrite Hsplit, mapM_app, Hpre. cbn [bind].
        rewrite mapM_cons, Hla. cbn [bind].
        rewrite mapM_app, (mapM_Forall _ Line _ Hpl). cbn [bind].
        rewrite mapM_cons, Hlb. cbn [bind]. rewrite Hpost. reflexivity. }
    rewrite (Hnodes npre npost eq_refl eq_refl).
    destruct (reduce init npre 0) as [ctx|e]; [|reflexivity]. cbn [bind].
    destruct (reduce_entity_plains_entity ctx a b plains (npost ++ [EOF])%list
                (0 + length npre) Hne) as (e & -> & _).
    reflexivity.
  - intros npre npost ctx Hpre Hpost Hrun Hph.
    rewrite (Hnodes npre npost Hpre Hpost), Hrun. cbn [bind].
    destruct (reduce_entity_plains_entity ctx a b plains (npost ++ [EOF])%list
                (0 + length npre) Hne) as (e & -> & He).
    destruct He as [j ->]; [|exact Hph|exists j; reflexivity].
    eapply wellFormed_reduce; [apply wellFormed_init | exact Hrun].
Qed.

Lemma separated_directives_are_refused_witness :
  let src := lines ["@annotate: a"; "k: v"; "@annotate: b"; "---"; "text"] in
  split re_newline src = ([] ++ "@annotate: a" :: ["k: v"] ++ "@annotate: b" :: ["---"; "text"])%list
  /\ is_ok (parse src) = false
  /\ exists j, parse src = Throw (Error (msg_not_immediate j)).
Proof.
  intros src.
  assert (H : split re_newline src
              = ([] ++ "@annotate: a" :: ["k: v"] ++ "@annotate: b" :: ["---"; "text"])%list)
    by reflexivity.
  assert (Hpl : Forall (fun l => classifyLine l = Ok (Line l)) ["k: v"])
    by (constructor; [reflexivity | constructor]).
  destruct (separated_directives_are_refused src [] "@annotate: a" "a" ["k: v"]
              "@annotate: b" "b" ["---"; "text"] H eq_refl eq_refl
              ltac:(discriminate) Hpl) as [Hno Hmsg].
  split; [exact H|]. split; [exact Hno|].
  apply (Hmsg [] [Separator; Line "text"] init); try reflexivity.
  simpl. discriminate.
Defined.

(** C6, as stated, fails: with a guide directive in front, the two
    separated entity directives are refused with another error, the one of
    the first directive met in the guide phase. *)
Lemma separated_directives_other_error :
  let src := lines ["@guide: g"; "@annotate: a"; "x"; "@annotate: b"] in
  split re_newline src = ["@guide: g"; "@annotate: a"; "x"; "@annotate: b"]
  /\ classifyLine "@annotate: a" = Ok (Entity "a")
  /\ classifyLine "x" = Ok (Line "x")
  /\ classifyLine "@annotate: b" = Ok (Entity "b")
  /\ parse src
     = Throw (Error "Multiple annotations are only supported for entities. At line 2")
  /\ forall j, parse src <> Throw (Error (msg_not_immediate j)).
Proof.
  intros src. repeat (split; [vm_compute; reflexivity|]).
  intros j H.
  assert (Hp : parse src = Throw (Error (msg_only_entities 1))) by (vm_compute; reflexivity).
  rewrite Hp in H. unfold msg_only_entities, msg_not_immediate in H.
  cbn [String.append] in H. discriminate H.
Qed.

(** ** Multi-reference expansion *)

Lemma setDocumentation_truthy (v : Value) (d : string) :
  exists m, setDocumentation (if truthy v then v else VObj []) d = Ok m.
Proof.
  destruct v; simpl; try (eexists; reflexivity).
  - destruct b; eexists; reflexivity.
  - destruct (negb _); eexists; reflexivity.
  - destruct (negb _); eexists; reflexivity.
Qed.

Lemma parse_two_directives_block
      (src la a lb b : string) (metas : list string) (sep : string) (docs : list string) :
  split re_newline src = (la :: lb :: metas ++ sep :: docs)%list ->
  classifyLine la = Ok (Entity a) ->
  classifyLine lb = Ok (Entity b) ->
  Forall (fun l => classifyLine l = Ok (Line l)) metas ->
  classifyLine sep = Ok Separator ->
  Forall (fun l => classifyLine l = Ok (Line l)) docs ->
  parse src
  = Ok [{| title := None; ref := Some (RefArr [Some a; Some b]);
           meta := block metas; doc := block docs; multi := true;
           sealed := match metas, docs with [], [] => false | _, _ => true end |}].
Proof.
  intros Hsplit Hla Hlb Hm Hsep Hd. unfold parse. rewrite Hsplit.
  rewrite !mapM_cons, Hla, Hlb. cbn [bind].
  rewrite mapM_app, (mapM_Forall _ Line _ Hm). cbn [bind].
  rewrite mapM_cons, Hsep. cbn [bind].
  rewrite (mapM_Forall _ Line _ Hd). cbn [bind append].
  cbn [reduce step init annotation current ast bind negb sealed intoArray ref app append].
  rewrite <- app_assoc, reduce_app, reduce_meta_lines. cbn [bind app reduce step current].
  cbn [annotation ast bind].
  rewrite reduce_app, reduce_doc_lines. cbn [bind reduce step current ast append app].
  rewrite fold_docLine, fold_metaLine. cbn.
  destruct metas, docs; reflexivity.
Qed.

(** C7 — A document made of [@annotate: a] immediately followed by
    [@annotate: b], then one block of metadata lines, a separator and
    documentation lines, analyses (when the YAML loader accepts the
    metadata text) into exactly two units, for [a] and for [b] in that
    order, carrying one and the same fields value: the loaded metadata
    with [documentation] set to the documentation text. *)
Theorem multi_ref_expansion
        (safeLoad : string -> result Value)
        (src la a lb b : string) (metas : list string) (sep : string)
        (docs : list string) (loaded : Value) :
  split re_newline src = (la :: lb :: metas ++ sep :: docs)%list ->
  classifyLine la = Ok (Entity a) ->
  classifyLine lb = Ok (Entity b) ->
  Forall (fun l => classifyLine l = Ok (Line l)) metas ->
  classifyLine sep = Ok Separator ->
  Forall (fun l => classifyLine l = Ok (Line l)) docs ->
  safeLoad (block metas) = Ok loaded ->
  exists fields,
    setDocumentation (if truthy loaded then loaded else VObj []) (block docs) = Ok fields
    /\ (entities <- parse src ;; analyse safeLoad entities)
       = Ok [{| unit_title := None; unit_ref := Some (RefStr a); unit_meta := fields |};
             {| unit_title := None; unit_ref := Some (RefStr b); unit_meta := fields |}].
Proof.
  intros Hsplit Hla Hlb Hm Hsep Hd Hload.
  destruct (setDocumentation_truthy loaded (block docs)) as [fields Hf].
  exists fields. split; [exact Hf|].
  rewrite (parse_two_directives_block _ _ _ _ _ _ _ _ Hsplit Hla Hlb Hm Hsep Hd).
  cbn [bind]. unfold analyse. rewrite mapM_cons. unfold parseMeta at 1.
  cbn [meta doc multi ref]. rewrite Hload. cbn [bind]. rewrite Hf. reflexivity.
Qed.

Lemma multi_ref_expansion_witness :
  let src := lines ["@annotate: a"; "@annotate: b"; "category: x"; "---"; "Some text."] in
  let safeLoad := fun _ : string => Ok (VObj [("category", VStr "x")]) in
  let fields := VObj [("category", VStr "x");
                      ("documentation", VStr (nl ++ "Some text."))] in
  split re_newline src
  = ("@annotate: a" :: "@annotate: b" :: ["category: x"] ++ "---" :: ["Some text."])%list
  /\ (entities <- parse src ;; analyse safeLoad entities)
     = Ok [{| unit_title := None; unit_ref := Some (RefStr "a"); unit_meta := fields |};
           {| unit_title := None; unit_ref := Some (RefStr "b"); unit_meta := fields |}].
Proof.
  intros src safeLoad fields.
  assert (H : split re_newline src
              = ("@annotate: a" :: "@annotate: b" :: ["category: x"] ++ "---" :: ["Some text."])%list)
    by reflexivity.
  split; [exact H|].
  assert (Hm : Forall (fun l => classifyLine l = Ok (Line l)) ["category: x"])
    by (constructor; [reflexivity | constructor]).
  assert (Hd : Forall (fun l => classifyLine l = Ok (Line l)) ["Some text."])
    by (constructor; [reflexivity | constructor]).
  destruct (multi_ref_expansion safeLoad src "@annotate: a" "a" "@annotate: b" "b"
              ["category: x"] "---" ["Some text."] (VObj [("category", VStr "x")])
              H eq_refl eq_refl Hm eq_refl Hd eq_refl) as (f & Hf & Hrun).
  injection Hf as <-. exact Hrun.
Defined.

(** ** Example mining *)

(** C4 — From the tokens of a heading ending in [::], two code blocks and
    a further heading, the miner yields the candidate named by the first
    heading last, and its source is the first code block alone: a code
    block clears the marker, so the second block is not captured.  Every
    candidate before it has an empty source. *)
Theorem heading_two_blocks_heading
        (lexer : string -> list Token) (documentation h1 c1 c2 h2 : string) :
  lexer documentation = [Heading h1; Code c1; Code c2; Heading h2] ->
  isExampleLeadingParagraph (Heading h1) = true ->
  exists before,
    collectExamples lexer documentation
    = (before ++ [{| name := Some h1; source := c1 |}])%list
    /\ Forall (fun e => source e = "") before.
Proof.
  intros Hlex Hlead. unfold collectExamples, collectTokens. rewrite Hlex.
  cbn [fold_left collectStep]. rewrite Hlead. cbn [app join].
  exists [{| name := None; source := "" |}]. split; [reflexivity|].
  constructor; [reflexivity | constructor].
Qed.

Lemma heading_two_blocks_heading_witness :
  sampleLexer sampleDocumentation = [Heading "Example::"; Code "a"; Code "b"; Heading "Next"]
  /\ isExampleLeadingParagraph (Heading "Example::") = true
  /\ exists before,
       collectExamples sampleLexer sampleDocumentation
       = (before ++ [{| name := Some "Example::"; source := "a" |}])%list
       /\ Forall (fun e => source e = "") before.
Proof.
  split; [reflexivity|]. split; [reflexivity|].
  apply (heading_two_blocks_heading sampleLexer sampleDocumentation
           "Example::" "a" "b" "Next"); reflexivity.
Defined.

(** C4, as stated, fails: on the sample the miner yields two candidates,
    and none has both blocks as its source. *)
Lemma heading_two_blocks_not_joined :
  sampleLexer sampleDocumentation = [Heading "Example::"; Code "a"; Code "b"; Heading "Next"]
  /\ isExampleLeadingParagraph (Heading "Example::") = true
  /\ collectExamples sampleLexer sampleDocumentation
     = [{| name := None; source := "" |}; {| name := Some "Example::"; source := "a" |}]
  /\ ~ (exists n, collectExamples sampleLexer sampleDocumentation
                  = [{| name := n; source := "a" ++ nl ++ nl ++ "b" |}]).
Proof.
  split; [reflexivity|]. split; [reflexivity|]. split; [reflexivity|].
  intros [n H]. vm_compute in H. discriminate H.
Qed.

(** ** Deprecation *)

Lemma get_set_same (o : Obj) (k : string) (v : Value) : get (set o k v) k = v.
Proof.
  induction o as [|[k' w] o IH]; simpl.
  - rewrite String.eqb_refl. reflexivity.
  - destruct (String.eqb k' k) eqn:E; simpl; rewrite E; [reflexivity | exact IH].
Qed.

(** C8 — When the field [deprecated] of a metadata mapping is truthy, the
    inferred mapping has [stability] equal to ["deprecated"], whatever
    [stability] the mapping had; when it is absent or falsy, the mapping
    is returned as it is. *)
Theorem inferDeprecated_stability (m : Obj) :
  (truthy (get m "deprecated") = true ->
   get (inferDeprecated m) "stability" = VStr "deprecated")
  /\ (truthy (get m "deprecated") = false -> inferDeprecated m = m).
Proof.
  unfold inferDeprecated. split; intros H; rewrite H; [|reflexivity].
  unfold merge. cbn [fold_left]. unfold assign at 1. cbn [fold_left fst snd].
  apply get_set_same.
Qed.

Lemma inferDeprecated_stability_witness :
  let m := [("stability", VStr "stable"); ("deprecated", VBool true)] in
  let m' := [("stability", VStr "stable"); ("deprecated", VStr "")] in
  truthy (get m "deprecated") = true
  /\ get (inferDeprecated m) "stability" = VStr "deprecated"
  /\ truthy (get m' "deprecated") = false
  /\ inferDeprecated m' = m'.
Proof.
  intros m m'.
  split; [reflexivity|].
  split; [apply (proj1 (inferDeprecated_stability m)); reflexivity|].
  split; [reflexivity|].
  apply (proj2 (inferDeprecated_stability m')); reflexivity.
Defined.

(** ** The documentation rewrite *)

Lemma length_append (a b : string) :
  String.length (a ++ b) = String.length a + String.length b.
Proof. induction a as [|c a IH]; simpl; [reflexivity | now rewrite IH]. Qed.

Lemma oneLine_cons (c : ascii) (s : string) :
  oneLine (String c s) = true <-> is_lt c = false /\ oneLine s = true.
Proof.
  cbn [oneLine]. rewrite andb_true_iff, negb_true_iff. reflexivity.
Qed.

Lemma at_eol_append_lt (L : string) (t : ascii) (rest : string) :
  is_lt t = true -> at_eol true (L ++ String t rest) = at_eol true L.
Proof.
  intros Ht. destruct L as [|c L]; simpl; [exact Ht | reflexivity].
Qed.

(** *** Matching on a line does not depend on the lines after it *)

Lemma star_local (t : ascii) (rest : string) (p : ascii -> bool) :
  is_lt t = true ->
  (forall c, is_lt c = true -> p c = false) ->
  forall L prev caps k k',
    oneLine L = true -> agree (String t rest) k k' ->
    star p prev (L ++ String t rest) caps k
    = extend (String t rest) (star p prev L caps k').
Proof.
  intros Ht Hp. induction L as [|c L IH]; intros prev caps k k' HL Hk.
  - cbn [String.append star]. rewrite (Hp t Ht).
    apply (Hk prev "" caps). reflexivity.
  - cbn [String.append star]. pose proof HL as HcL.
    apply oneLine_cons in HL as [Hc HL].
    destruct (p c).
    + rewrite (IH (Some c) caps k k' HL Hk).
      destruct (star p (Some c) L caps k') as [[s' c']|]; [reflexivity|].
      cbn [extend]. apply (Hk prev (String c L) caps HcL).
    + apply (Hk prev (String c L) caps HcL).
Qed.

Lemma run_local (t : ascii) (rest : string) (r : re) :
  is_lt t = true -> lineLocal r ->
  forall L prev caps k k',
    oneLine L = true -> agree (String t rest) k k' ->
    run true r prev (L ++ String t rest) caps k
    = extend (String t rest) (run true r prev L caps k').
Proof.
  intros Ht. induction r as [|c|p|p| | |r IH|r1 IH1 r2 IH2|r1 IH1 r2 IH2];
    intros Hr L prev caps k k' HL Hk; cbn [run lineLocal] in *.
  - apply Hk, HL.
  - destruct L as [|c' L]; cbn [String.append].
    + destruct (Ascii.eqb c t) eqn:E; [|reflexivity].
      apply Ascii.eqb_eq in E. subst t. congruence.
    + apply oneLine_cons in HL as [_ HL].
      destruct (Ascii.eqb c c'); [apply Hk, HL | reflexivity].
  - apply star_local; assumption.
  - destruct L as [|c' L]; cbn [String.append].
    + rewrite (Hr t Ht). reflexivity.
    + apply oneLine_cons in HL as [_ HL].
      destruct (p c'); [apply star_local; assumption | reflexivity].
  - destruct (at_bol true prev); [apply Hk, HL | reflexivity].
  - rewrite at_eol_append_lt by exact Ht.
    destruct (at_eol true L); [apply Hk, HL | reflexivity].
  - destruct Hr.
  - destruct Hr as [H1 H2]. apply IH1; [exact H1 | exact HL |].
    intros p s c Hs. apply IH2; assumption.
  - destruct Hr as [H1 H2]. rewrite (IH1 H1 L prev caps k k' HL Hk).
    destruct (run true r1 prev L caps k') as [[s' c']|]; [reflexivity|].
    cbn [extend]. apply IH2; assumption.
Qed.

Lemma match_at_local (t : ascii) (rest : string) (r : re) (L : string) (prev : option ascii) :
  is_lt t = true -> lineLocal r -> oneLine L = true ->
  match_at true r prev (L ++ String t rest)
  = extend (String t rest) (match_at true r prev L).
Proof.
  intros Ht Hr HL. unfold match_at. apply run_local; try assumption.
  intros p s c _. reflexivity.
Qed.

Lemma match_len_local (t : ascii) (rest : string) (r : re) (L : string) (prev : option ascii) :
  is_lt t = true -> lineLocal r -> oneLine L = true ->
  match_len true r prev (L ++ String t rest) = match_len true r prev L.
Proof.
  intros Ht Hr HL. unfold match_len. rewrite match_at_local by assumption.
  destruct (match_at true r prev L) as [[s' c']|]; [|reflexivity].
  cbn [extend]. rewrite !length_append. f_equal. lia.
Qed.

Lemma match_len_bound (m : bool) (r : re) (prev : option ascii) (s : string) (n : nat) :
  match_len m r prev s = Some n -> n <= String.length s.
Proof.
  unfold match_len. destruct (match_at m r prev s) as [[s' c']|]; [|discriminate].
  intros [= <-]. lia.
Qed.

(** A global replacement works line by line, for a pattern that stays on
    its line and never matches the empty text at the end. *)
Lemma replace_split (r : re) (by_ : string) (t : ascii) (rest : string) :
  lineLocal r -> (forall p, match_len true r p "" = None) -> is_lt t = true ->
  forall L skip prev,
    oneLine L = true -> skip <= String.length L ->
    replace_from true r by_ skip prev (L ++ String t rest)
    = replace_from true r by_ skip prev L
      ++ String t (replace_from true r by_ 0 (Some t) rest).
Proof.
  intros Hr Hempty Ht. induction L as [|c L IH]; intros skip prev HL Hskip.
  - cbn [String.length] in Hskip. assert (skip = 0) by lia. subst skip.
    pose proof (match_len_local t rest r "" prev Ht Hr eq_refl) as Hm.
    cbn [String.append] in Hm. cbn [String.append replace_from].
    rewrite Hm, Hempty. reflexivity.
  - pose proof (match_len_local t rest r (String c L) prev Ht Hr HL) as Hm.
    apply oneLine_cons in HL as [_ HL]. cbn [String.length] in Hskip.
    cbn [String.append] in Hm. cbn [String.append replace_from].
    destruct skip as [|n].
    + rewrite Hm. destruct (match_len true r prev (String c L)) as [[|n]|] eqn:E.
      * rewrite IH by (try assumption; lia). rewrite append_assoc. reflexivity.
      * apply match_len_bound in E. cbn [String.length] in E.
        rewrite IH by (try assumption; lia). rewrite append_assoc. reflexivity.
      * rewrite IH by (try assumption; lia). reflexivity.
    + rewrite IH by (try assumption; lia). reflexivity.
Qed.

Lemma replace_skip_all (r : re) (by_ : string) :
  (forall p, match_len true r p "" = None) ->
  forall s prev, replace_from true r by_ (String.length s) prev s = "".
Proof.
  intros Hempty. induction s as [|c s IH]; intros prev; cbn [String.length replace_from].
  - rewrite Hempty. reflexivity.
  - apply IH.
Qed.

(** A search works line by line too. *)
Lemma exec_from_split (r : re) (t : ascii) (rest : string) :
  lineLocal r -> is_lt t = true ->
  forall L prev,
    oneLine L = true ->
    exec_from true r prev (L ++ String t rest) = None ->
    exec_from true r prev L = None /\ exec_from true r (Some t) rest = None.
Proof.
  intros Hr Ht. induction L as [|c L IH]; intros prev HL H.
  - pose proof (match_at_local t rest r "" prev Ht Hr eq_refl) as Hm.
    cbn [String.append] in Hm, H. cbn [exec_from] in H |- *. rewrite Hm in H.
    destruct (match_at true r prev "") as [[s' c']|]; cbn [extend] in H; [discriminate|].
    split; [reflexivity | exact H].
  - pose proof (match_at_local t rest r (String c L) prev Ht Hr HL) as Hm.
    apply oneLine_cons in HL as [_ HL].
    cbn [String.append] in Hm, H. cbn [exec_from] in H |- *. rewrite Hm in H.
    destruct (match_at true r prev (String c L)) as [[s' c']|]; cbn [extend] in H;
      [discriminate|].
    apply IH; assumption.
Qed.

(** *** The three patterns on one line *)

Lemma blank_not_lt (c : ascii) : is_lt c = true -> blank c = false.
Proof.
  unfold is_lt. intros H. apply orb_prop in H as [H|H];
    apply Ascii.eqb_eq in H; subst c; reflexivity.
Qed.

Lemma lineLocal_marker_line : lineLocal re_marker_line.
Proof. cbn. repeat split; reflexivity. Qed.

Lemma lineLocal_marker_tail : lineLocal re_marker_tail.
Proof. cbn. repeat split; try reflexivity. exact blank_not_lt. Qed.

Lemma lineLocal_triple : lineLocal re_triple.
Proof. cbn. repeat split; try reflexivity. exact blank_not_lt. Qed.

Lemma marker_line_empty (p : option ascii) : match_len true re_marker_line p "" = None.
Proof. unfold match_len, match_at. cbn. destruct (at_bol true p); reflexivity. Qed.

Lemma marker_tail_empty (p : option ascii) : match_len true re_marker_tail p "" = None.
Proof. reflexivity. Qed.

(** Blanks up to the end of the line. *)
Lemma star_blank_eol (k : cont) :
  (forall p s c, k p s c = if at_eol true s then Some (s, c) else None) ->
  forall t prev caps,
    oneLine t = true ->
    star blank prev t caps k = if allBlank t then Some ("", caps) else None.
Proof.
  intros Hk. induction t as [|c t IH]; intros prev caps Ht; cbn [star allBlank].
  - rewrite Hk. reflexivity.
  - apply oneLine_cons in Ht as [Hc Ht].
    assert (Hstop : k prev (String c t) caps = None).
    { rewrite Hk. cbn [at_eol]. rewrite Hc. reflexivity. }
    destruct (blank c); cbn [andb].
    + rewrite IH by exact Ht. destruct (allBlank t); [reflexivity | exact Hstop].
    + exact Hstop.
Qed.

Lemma marker_tail_line (L : string) (prev : option ascii) :
  oneLine L = true ->
  match_len true re_marker_tail prev L
  = if tail2 L then Some (String.length L) else None.
Proof.
  intros HL. unfold match_len, match_at, re_marker_tail.
  destruct L as [|a [|b t]]; cbn [lit run tail2].
  - reflexivity.
  - destruct (Ascii.eqb ":" a); reflexivity.
  - apply oneLine_cons in HL as [_ HL]. apply oneLine_cons in HL as [_ HL].
    unfold is_colon.
    destruct (Ascii.eqb ":" a); [|reflexivity].
    destruct (Ascii.eqb ":" b); [|reflexivity]. cbn [andb].
    rewrite (star_blank_eol _ (fun _ _ _ => eq_refl)) by exact HL.
    destruct (allBlank t); [|reflexivity].
    cbn [String.length]. rewrite Nat.sub_0_r. reflexivity.
Qed.

Lemma triple_line (L : string) (prev : option ascii) :
  oneLine L = true ->
  match_at true re_triple prev L = if tail3 L then Some ("", []) else None.
Proof.
  intros HL. unfold match_at, re_triple.
  destruct L as [|a [|b [|c t]]]; cbn [lit run tail3].
  - reflexivity.
  - destruct (Ascii.eqb ":" a); reflexivity.
  - destruct (Ascii.eqb ":" a); [|reflexivity]. destruct (Ascii.eqb ":" b); reflexivity.
  - do 3 apply oneLine_cons in HL as [_ HL].
    unfold is_colon.
    destruct (Ascii.eqb ":" a); [|reflexivity].
    destruct (Ascii.eqb ":" b); [|reflexivity].
    destruct (Ascii.eqb ":" c); [|reflexivity]. cbn [andb].
    rewrite (star_blank_eol _ (fun _ _ _ => eq_refl)) by exact HL.
    reflexivity.
Qed.

Lemma marker_line_line (L : string) (prev : option ascii) :
  oneLine L = true ->
  match_len true re_marker_line prev L
  = if at_bol true prev && exact2 L then Some 2 else None.
Proof.
  intros HL. unfold match_len, match_at, re_marker_line. cbn [lit run].
  destruct (at_bol true prev); [|reflexivity]. cbn [andb].
  destruct L as [|a [|b t]]; cbn [exact2].
  - reflexivity.
  - destruct (Ascii.eqb ":" a); reflexivity.
  - unfold is_colon.
    destruct (Ascii.eqb ":" a); [|destruct t; reflexivity].
    destruct (Ascii.eqb ":" b); [|destruct t; reflexivity]. cbn [andb].
    destruct t as [|c t]; [reflexivity|].
    do 2 apply oneLine_cons in HL as [_ HL]. apply oneLine_cons in HL as [Hc _].
    cbn [at_eol]. rewrite Hc. reflexivity.
Qed.

(** *** The two replacements on one line *)

Lemma replace_marker_line_inside (L : string) : forall prev,
  oneLine L = true -> at_bol true prev = false ->
  replace_from true re_marker_line "" 0 prev L = L.
Proof.
  induction L as [|c L IH]; intros prev HL Hb; cbn [replace_from].
  - rewrite marker_line_empty. reflexivity.
  - rewrite marker_line_line by exact HL. rewrite Hb. cbn [andb].
    apply oneLine_cons in HL as [Hc HL].
    rewrite IH; [reflexivity | exact HL |]. cbn [at_bol andb]. exact Hc.
Qed.

Lemma replace_marker_line_line (L : string) (prev : option ascii) :
  oneLine L = true -> at_bol true prev = true ->
  replace_from true re_marker_line "" 0 prev L = if exact2 L then "" else L.
Proof.
  intros HL Hb. destruct L as [|c L]; cbn [replace_from].
  - rewrite marker_line_empty. reflexivity.
  - rewrite marker_line_line by exact HL. rewrite Hb. cbn [andb].
    destruct (exact2 (String c L)) eqn:E.
    + destruct L as [|b [|x L]]; cbn [exact2] in E; try discriminate.
      cbn [replace_from String.append]. rewrite marker_line_empty. reflexivity.
    + apply oneLine_cons in HL as [Hc HL].
      rewrite replace_marker_line_inside; [reflexivity | exact HL |].
      cbn [at_bol andb]. exact Hc.
Qed.

Lemma replace_marker_tail_line (L : string) : forall prev,
  oneLine L = true ->
  replace_from true re_marker_tail ":" 0 prev L = tailfix L.
Proof.
  induction L as [|c L IH]; intros prev HL; [reflexivity|].
  cbn [replace_from tailfix]. rewrite marker_tail_line by exact HL.
  destruct (tail2 (String c L)).
  - cbn [String.length]. rewrite replace_skip_all by exact marker_tail_empty.
    reflexivity.
  - apply oneLine_cons in HL as [_ HL]. rewrite IH by exact HL. reflexivity.
Qed.

Lemma tripleFree_of_search (L : string) : forall prev,
  oneLine L = true -> exec_from true re_triple prev L = None -> tripleFree L = true.
Proof.
  induction L as [|c L IH]; intros prev HL H; [reflexivity|].
  cbn [exec_from] in H. rewrite triple_line in H by exact HL.
  cbn [tripleFree]. destruct (tail3 (String c L)); [discriminate|].
  apply oneLine_cons in HL as [_ HL]. cbn [negb andb]. exact (IH _ HL H).
Qed.

(** *** The rewrite of one line is idempotent *)

Lemma allBlank_tailfix (s : string) : allBlank (tailfix s) = true -> allBlank s = true.
Proof.
  induction s as [|c s IH]; [reflexivity|]. cbn [tailfix].
  destruct (tail2 (String c s)); [discriminate|].
  cbn [allBlank]. intros H. apply andb_prop in H as [Hc H].
  rewrite Hc, (IH H). reflexivity.
Qed.

Lemma tail2_after_tailfix (c : ascii) (s : string) :
  tail2 (String c (tailfix s)) = true ->
  tail2 (String c s) = true \/ tail3 (String c s) = true.
Proof.
  destruct s as [|b s]; [discriminate|]. cbn [tailfix].
  destruct (tail2 (String b s)) eqn:E.
  - intros H. right. cbn [tail2 allBlank] in H.
    apply andb_prop in H as [H _]. apply andb_prop in H as [Hc _].
    destruct s as [|x s]; [discriminate|].
    cbn [tail2] in E. cbn [tail3]. rewrite Hc.
    apply andb_prop in E as [E Hbl]. apply andb_prop in E as [Hb Hx].
    rewrite Hb, Hx, Hbl. reflexivity.
  - intros H. left. cbn [tail2] in H |- *.
    apply andb_prop in H as [H Hbl]. rewrite H.
    rewrite (allBlank_tailfix _ Hbl). reflexivity.
Qed.

Lemma tailfix_idempotent (s : string) :
  tripleFree s = true -> tailfix (tailfix s) = tailfix s.
Proof.
  induction s as [|c s IH]; [reflexivity|]. intros H.
  cbn [tripleFree] in H. apply andb_prop in H as [H3 H].
  apply negb_true_iff in H3. cbn [tailfix].
  destruct (tail2 (String c s)) eqn:E2; [reflexivity|].
  cbn [tailfix]. destruct (tail2 (String c (tailfix s))) eqn:E.
  - apply tail2_after_tailfix in E as [E|E]; congruence.
  - rewrite (IH H). reflexivity.
Qed.

Lemma exact2_tail2 (s : string) : exact2 s = true -> tail2 s = true.
Proof.
  destruct s as [|a [|b [|c s]]]; try discriminate.
  cbn [exact2 tail2 allBlank]. intros ->. reflexivity.
Qed.

Lemma exact2_tailfix (s : string) : tripleFree s = true -> exact2 (tailfix s) = false.
Proof.
  destruct s as [|c s]; [reflexivity|]. intros H.
  cbn [tripleFree] in H. apply andb_prop in H as [H3 _].
  apply negb_true_iff in H3. cbn [tailfix].
  destruct (tail2 (String c s)) eqn:E2; [reflexivity|].
  destruct (exact2 (String c (tailfix s))) eqn:E; [|reflexivity].
  apply exact2_tail2, tail2_after_tailfix in E as [E|E]; congruence.
Qed.

Lemma rewriteLine_idempotent (s : string) :
  tripleFree s = true -> rewriteLine (rewriteLine s) = rewriteLine s.
Proof.
  intros H. unfold rewriteLine at 2 3. destruct (exact2 s); [reflexivity|].
  unfold rewriteLine. rewrite (exact2_tailfix s H). apply tailfix_idempotent, H.
Qed.

Lemma oneLine_tailfix (s : string) : oneLine s = true -> oneLine (tailfix s) = true.
Proof.
  induction s as [|c s IH]; [reflexivity|]. intros H.
  apply oneLine_cons in H as [Hc H]. cbn [tailfix].
  destruct (tail2 (String c s)); [reflexivity|].
  apply oneLine_cons. auto.
Qed.

Lemma oneLine_rewriteLine (s : string) : oneLine s = true -> oneLine (rewriteLine s) = true.
Proof.
  intros H. unfold rewriteLine. destruct (exact2 s); [reflexivity|].
  apply oneLine_tailfix, H.
Qed.

(** *** The rewrite of a whole text *)

Lemma rewriteFrom_line (L : string) (prev : option ascii) :
  oneLine L = true -> at_bol true prev = true ->
  rewriteFrom prev L = rewriteLine L.
Proof.
  intros HL Hb. unfold rewriteFrom, rewriteLine.
  rewrite replace_marker_line_line by assumption.
  destruct (exact2 L); [reflexivity|]. apply replace_marker_tail_line, HL.
Qed.

Lemma rewriteFrom_split (L : string) (t : ascii) (rest : string) (prev : option ascii) :
  oneLine L = true -> is_lt t = true -> at_bol true prev = true ->
  rewriteFrom prev (L ++ String t rest)
  = rewriteLine L ++ String t (rewriteFrom (Some t) rest).
Proof.
  intros HL Ht Hb. unfold rewriteFrom.
  rewrite (replace_split re_marker_line "" t rest lineLocal_marker_line
             marker_line_empty Ht L 0 prev HL (Nat.le_0_l _)).
  rewrite replace_marker_line_line by assumption.
  assert (H1 : oneLine (if exact2 L then "" else L) = true)
    by (destruct (exact2 L); [reflexivity | exact HL]).
  rewrite (replace_split re_marker_tail ":" t _ lineLocal_marker_tail
             marker_tail_empty Ht _ 0 prev H1 (Nat.le_0_l _)).
  rewrite replace_marker_tail_line by exact H1.
  unfold rewriteLine. destruct (exact2 L); reflexivity.
Qed.

(** A text is one line, or a first line, a terminator and a shorter text. *)
Lemma first_line (d : string) :
  oneLine d = true
  \/ exists L t rest,
       d = L ++ String t rest /\ oneLine L = true /\ is_lt t = true
       /\ String.length rest < String.length d.
Proof.
  induction d as [|c d IH]; [left; reflexivity|].
  destruct (is_lt c) eqn:Hc.
  - right. exists "", c, d. cbn. auto.
  - destruct IH as [H | (L & t & rest & -> & HL & Ht & Hlen)].
    + left. apply oneLine_cons. auto.
    + right. exists (String c L), t, rest. repeat split; try assumption.
      * apply oneLine_cons. auto.
      * cbn [String.append String.length]. lia.
Qed.

Lemma rewriteFrom_idempotent_line (d : string) (prev : option ascii) :
  oneLine d = true -> at_bol true prev = true ->
  exec_from true re_triple prev d = None ->
  rewriteFrom prev (rewriteFrom prev d) = rewriteFrom prev d.
Proof.
  intros HL Hb Hfree. rewrite (rewriteFrom_line d prev HL Hb).
  rewrite rewriteFrom_line by (try apply oneLine_rewriteLine; assumption).
  apply rewriteLine_idempotent. eapply tripleFree_of_search; eassumption.
Qed.

Lemma rewriteFrom_idempotent (n : nat) : forall d prev,
  String.length d <= n -> at_bol true prev = true ->
  exec_from true re_triple prev d = None ->
  rewriteFrom prev (rewriteFrom prev d) = rewriteFrom prev d.
Proof.
  induction n as [|n IH]; intros d prev Hn Hb Hfree.
  - destruct d; [|cbn in Hn; lia].
    apply rewriteFrom_idempotent_line; [reflexivity | assumption | assumption].
  - destruct (first_line d) as [HL | (L & t & rest & -> & HL & Ht & Hlen)].
    + apply rewriteFrom_idempotent_line; assumption.
    + destruct (exec_from_split re_triple t rest lineLocal_triple Ht L prev HL Hfree)
        as [HfL Hfrest].
      rewrite (rewriteFrom_split L t rest prev HL Ht Hb).
      rewrite rewriteFrom_split by (try apply oneLine_rewriteLine; assumption).
      rewrite rewriteLine_idempotent by (eapply tripleFree_of_search; eassumption).
      rewrite IH; [reflexivity | lia | | exact Hfrest].
      cbn [at_bol andb]. exact Ht.
Qed.

(** C5 — The [::]-marker rewrite applied twice gives what it gives
    applied once, for every documentation text in which no line ends in
    three or more colons followed by spaces or tabs. *)
Theorem rewriteDocumentation_idempotent (d : string) :
  test true re_triple d = false ->
  rewriteDocumentation (rewriteDocumentation d) = rewriteDocumentation d.
Proof.
  intros H. unfold test, exec in H.
  destruct (exec_from true re_triple None d) eqn:E; [discriminate|].
  exact (rewriteFrom_idempotent (String.length d) d None (Nat.le_refl _) eq_refl E).
Qed.

Lemma rewriteDocumentation_idempotent_witness :
  let d := lines ["Example::"; ""; "::"; "    f(x) :: "; "text"] in
  test true re_triple d = false
  /\ rewriteDocumentation d = lines ["Example:"; ""; ""; "    f(x) :"; "text"]
  /\ rewriteDocumentation (rewriteDocumentation d) = rewriteDocumentation d.
Proof.
  intros d. split; [reflexivity|]. split; [reflexivity|].
  apply (rewriteDocumentation_idempotent d). reflexivity.
Defined.

(** C5, as stated, fails: a line ending in three colons loses one colon
    at each application. *)
Lemma rewriteDocumentation_three_colons :
  rewriteDocumentation "a:::" = "a::"
  /\ rewriteDocumentation (rewriteDocumentation "a:::") = "a:"
  /\ rewriteDocumentation (rewriteDocumentation "a:::") <> rewriteDocumentation "a:::".
Proof.
  split; [reflexivity|]. split; [reflexivity|]. vm_compute. discriminate.
Qed.

(* ------------------------------------------------------------------ *)
(** * Further properties *)

(** ** The structural parser on whole documents *)

Lemma mapM_length {A B : Type} (f : A -> result B) (xs : list A) (ys : list B) :
  mapM f xs = Ok ys -> length ys = length xs.
Proof.
  revert ys. induction xs as [|x xs IH]; intros ys H.
  - injection H as <-. reflexivity.
  - rewrite mapM_cons in H. destruct (f x); simpl in H; [|discriminate].
    fold (mapM f xs) in H. destruct (mapM f xs) as [zs|]; simpl in H; [|discriminate].
    injection H as <-. simpl. f_equal. apply IH. reflexivity.
Qed.

Lemma reduce_group (more : list string) : forall r done i,
  sealed r = false ->
  reduce {| annotation := Some entity; current := Some r; ast := done |}
         (map Entity more) i
  = Ok {| annotation := Some entity; current := Some (fold_left groupWith more r);
          ast := done |}.
Proof.
  induction more as [|x more IH]; intros r done i Hs; [reflexivity|].
  cbn [map reduce step annotation current ast]. rewrite Hs. cbn [negb bind fold_left].
  apply IH. reflexivity.
Qed.

Lemma fold_groupWith (more : list string) : forall items,
  fold_left groupWith more
            {| title := None; ref := Some (RefArr items); meta := ""; doc := "";
               multi := true; sealed := false |}
  = {| title := None; ref := Some (RefArr (items ++ map Some more)); meta := "";
       doc := ""; multi := true; sealed := false |}.
Proof.
  induction more as [|x more IH]; intros items; cbn [fold_left map].
  - rewrite app_nil_r. reflexivity.
  - unfold groupWith at 2. cbn [ref intoArray]. rewrite IH, <- app_assoc. reflexivity.
Qed.

Lemma fold_groupWith_first (a x : string) (more : list string) :
  fold_left groupWith (x :: more)
            {| title := None; ref := Some (RefStr a); meta := ""; doc := "";
               multi := false; sealed := false |}
  = {| title := None; ref := Some (RefArr (Some a :: Some x :: map Some more));
       meta := ""; doc := ""; multi := true; sealed := false |}.
Proof.
  cbn [fold_left].
  change (groupWith _ x)
    with {| title := None; ref := Some (RefArr [Some a; Some x]); meta := "";
            doc := ""; multi := true; sealed := false |}.
  rewrite fold_groupWith. reflexivity.
Qed.

Lemma reduce_block (b : Block) (cur : option Annot) (done : list Annot) (i : nat) :
  reduce {| annotation := None; current := cur; ast := done |} (blockNodes b) i
  = Ok {| annotation := None; current := Some (blockRecord b); ast := append done cur |}.
Proof.
  destruct b as [a more ms ds]. unfold blockNodes, blockRecord.
  cbn [blockRef blockMore blockMeta blockDoc].
  cbn [reduce step annotation current ast bind].
  rewrite reduce_app, reduce_group by reflexivity. cbn [bind].
  rewrite reduce_app, reduce_meta_lines. cbn [bind reduce step current annotation ast].
  rewrite reduce_doc_lines.
  destruct more as [|x more].
  - cbn [fold_left]. rewrite fold_docLine, fold_metaLine. cbn.
    destruct ms, ds; reflexivity.
  - rewrite fold_groupWith_first, fold_docLine, fold_metaLine. cbn.
    destruct ms, ds; reflexivity.
Qed.

Lemma reduce_blocks (bs : list Block) : forall cur done i,
  reduce {| annotation := None; current := cur; ast := done |}
         (concat (map blockNodes bs) ++ [EOF]) i
  = Ok {| annotation := None; current := None;
          ast := append done cur ++ map blockRecord bs |}.
Proof.
  induction bs as [|b bs IH]; intros cur done i.
  - cbn. rewrite app_nil_r. reflexivity.
  - cbn [map concat]. rewrite <- app_assoc, reduce_app, reduce_block. cbn [bind].
    rewrite IH. cbn [append]. rewrite <- app_assoc. reflexivity.
Qed.

(** X1 — A document that is a sequence of blocks, each made of one or
    more entity directives back to back, metadata lines, a separator and
    documentation lines, parses into one record per block, in document
    order: the references of the block (an array when there are several),
    the metadata and documentation text with a line feed before each line,
    [multi] set exactly for several references. *)
Theorem parse_blocks (src : string) (bs : list Block) :
  mapM classifyLine (split re_newline src) = Ok (concat (map blockNodes bs)) ->
  parse src = Ok (map blockRecord bs).
Proof.
  intros H. unfold parse. rewrite H. cbn [bind append].
  unfold init. rewrite reduce_blocks. reflexivity.
Qed.

Lemma parse_blocks_witness :
  let src := lines ["@annotate: a"; "@annotate: b"; "k: v"; "---"; "One."; "Two.";
                    "@annotate: c"; "---"] in
  let bs := [mkBlock "a" ["b"] ["k: v"] ["One."; "Two."]; mkBlock "c" [] [] []] in
  mapM classifyLine (split re_newline src) = Ok (concat (map blockNodes bs))
  /\ parse src
     = Ok [{| title := None; ref := Some (RefArr [Some "a"; Some "b"]);
              meta := nl ++ "k: v"; doc := nl ++ "One." ++ nl ++ "Two.";
              multi := true; sealed := true |};
           {| title := None; ref := Some (RefStr "c"); meta := ""; doc := "";
              multi := false; sealed := false |}].
Proof.
  intros src bs. split; [reflexivity|].
  apply (parse_blocks src bs). reflexivity.
Defined.

(** ** What the parser accepts and what it returns *)

Lemma split_from_nonempty (r : re) (s : string) : forall skip prev cur,
  split_from r skip prev cur s <> [].
Proof.
  induction s as [|c s IH]; intros skip prev cur; cbn [split_from]; [discriminate|].
  destruct skip; [|apply IH].
  destruct (match_len false r prev (String c s)) as [[|n]|].
  - destruct cur; [apply IH | discriminate].
  - discriminate.
  - apply IH.
Qed.

Lemma split_newline_nonempty (s : string) : split re_newline s <> [].
Proof.
  destruct s; [vm_compute; discriminate|]. unfold split. apply split_from_nonempty.
Qed.

Lemma classifyLine_throws_TypeError (l : string) (e : exn) :
  classifyLine l = Throw e -> exists m, e = TypeError m.
Proof.
  unfold classifyLine, match_group1.
  destruct (test false re_annotate_head l).
  - destruct (exec true re_annotate l) as [[|x [|g gs]]|]; cbn [bind];
      intros [= <-]; eexists; reflexivity.
  - destruct (test false re_guide_head l).
    + destruct (exec true re_guide l) as [[|x [|g gs]]|]; cbn [bind];
        intros [= <-]; eexists; reflexivity.
    + destruct (test false re_separator l); discriminate.
Qed.

Lemma classifyLine_not_EOF (l : string) : classifyLine l <> Ok EOF.
Proof.
  unfold classifyLine, match_group1.
  destruct (test false re_annotate_head l).
  - destruct (exec true re_annotate l) as [[|x [|g gs]]|]; cbn [bind]; discriminate.
  - destruct (test false re_guide_head l).
    + destruct (exec true re_guide l) as [[|x [|g gs]]|]; cbn [bind]; discriminate.
    + destruct (test false re_separator l); discriminate.
Qed.

Lemma mapM_throws {A B : Type} (f : A -> result B) (xs : list A) (e : exn) :
  mapM f xs = Throw e -> exists x, In x xs /\ f x = Throw e.
Proof.
  induction xs as [|x xs IH]; [discriminate|]. rewrite mapM_cons.
  destruct (f x) as [y|e'] eqn:E; cbn [bind].
  - fold (mapM f xs). destruct (mapM f xs) as [ys|e'']; cbn [bind]; [discriminate|].
    intros [= <-]. destruct (IH eq_refl) as (x' & Hin & Hx).
    exists x'. split; [right; exact Hin | exact Hx].
  - intros [= <-]. exists x. split; [left; reflexivity | exact E].
Qed.

(** Once something has been started, something is kept. *)
Lemma step_keeps_something ctx node i ctx' :
  current ctx <> None \/ ast ctx <> [] ->
  step ctx node i = Ok ctx' ->
  current ctx' <> None \/ ast ctx' <> [].
Proof.
  intros H Hs. destruct ctx as [a c done]. cbn [current ast] in H.
  destruct node; cbn [step annotation current ast] in Hs.
  - destruct a as [[|]|].
    + destruct c as [cur|]; [|discriminate].
      destruct (sealed cur); cbn [negb] in Hs; [discriminate|].
      injection Hs as <-. left. discriminate.
    + discriminate.
    + injection Hs as <-. left. discriminate.
  - destruct a; [discriminate|]. injection Hs as <-. left. discriminate.
  - destruct c; [|discriminate]. injection Hs as <-. left. discriminate.
  - injection Hs as <-. right. cbn [ast]. destruct c as [cur|]; cbn [append].
    + intros E. apply app_eq_nil in E as [_ E]. discriminate.
    + destruct H as [H|H]; [congruence | exact H].
  - destruct c as [cur|]; [|discriminate].
    destruct a; injection Hs as <-; left; discriminate.
Qed.

Lemma reduce_keeps_something nodes : forall ctx i ctx',
  current ctx <> None \/ ast ctx <> [] ->
  reduce ctx nodes i = Ok ctx' ->
  current ctx' <> None \/ ast ctx' <> [].
Proof.
  induction nodes as [|n nodes IH]; intros ctx i ctx' H Hr; cbn [reduce] in Hr.
  - injection Hr as <-. exact H.
  - destruct (step ctx n i) as [c|e] eqn:Hs; cbn [bind] in Hr; [|discriminate].
    eapply IH; [|exact Hr]. eapply step_keeps_something; eassumption.
Qed.

(** X2 — A document the parser accepts begins with a directive: its first
    line is an [@annotate:] or a [@guide:] line.  In particular the empty
    document is refused.  And an accepted document yields at least one
    record. *)
Theorem parse_needs_leading_directive (src : string) (rs : list Annot) :
  parse src = Ok rs ->
  (exists l rest,
      split re_newline src = l :: rest
      /\ ((exists x, classifyLine l = Ok (Entity x))
          \/ (exists t, classifyLine l = Ok (Guide t))))
  /\ rs <> [].
Proof.
  unfold parse. intros H.
  destruct (split re_newline src) as [|l rest] eqn:Hsplit;
    [exfalso; exact (split_newline_nonempty src Hsplit)|].
  rewrite mapM_cons in H. destruct (classifyLine l) as [n|e] eqn:Hl; cbn [bind] in H;
    [|discriminate].
  fold (mapM classifyLine rest) in H.
  destruct (mapM classifyLine rest) as [ns|e]; cbn [bind append] in H; [|discriminate].
  rewrite <- app_comm_cons in H. cbn [reduce] in H.
  destruct (step init n 0) as [c1|e] eqn:Hs; cbn [bind] in H; [|discriminate].
  destruct (reduce c1 (ns ++ [EOF]) 1) as [c2|e] eqn:Hr; cbn [bind] in H; [|discriminate].
  injection H as <-.
  assert (Hfirst : (exists x, n = Entity x) \/ (exists t, n = Guide t)).
  { destruct n; cbn in Hs; try discriminate.
    - left. eexists. reflexivity.
    - right. eexists. reflexivity.
    - exfalso. exact (classifyLine_not_EOF l Hl). }
  split.
  - exists l, rest. split; [reflexivity|].
    destruct Hfirst as [[x ->]|[t ->]]; [left | right]; eexists; exact Hl.
  - assert (H1 : current c1 <> None \/ ast c1 <> []).
    { destruct Hfirst as [[x ->]|[t ->]]; cbn in Hs; injection Hs as <-;
        left; discriminate. }
    rewrite reduce_app in Hr.
    destruct (reduce c1 ns 1) as [c3|e] eqn:Hr3; cbn [bind] in Hr; [|discriminate].
    pose proof (reduce_keeps_something _ _ _ _ H1 Hr3) as H3.
    cbn [reduce step bind] in Hr. injection Hr as <-. cbn [ast].
    destruct (current c3) as [cur|]; cbn [append].
    + intros E. apply app_eq_nil in E as [_ E]. discriminate.
    + destruct H3 as [H3|H3]; [congruence | exact H3].
Qed.

Lemma parse_needs_leading_directive_witness :
  let src := lines ["@guide: Getting started"; "---"; "Text."] in
  (exists rs, parse src = Ok rs /\ rs <> [])
  /\ exists l rest,
       split re_newline src = l :: rest
       /\ ((exists x, classifyLine l = Ok (Entity x))
           \/ (exists t, classifyLine l = Ok (Guide t))).
Proof.
  intros src.
  assert (H : parse src
              = Ok [{| title := Some "Getting started"; ref := None; meta := "";
                       doc := nl ++ "Text."; multi := false; sealed := true |}])
    by reflexivity.
  destruct (parse_needs_leading_directive src _ H) as [Hdir Hne].
  split; [eexists; split; [exact H | exact Hne] | exact Hdir].
Defined.

Example parse_empty_document :
  parse "" = Throw (Error "Documentation found before an entity annotation at line 1").
Proof. reflexivity. Qed.

(** ** Shape of the records *)

Lemma append_line_nonempty (a l : string) : a ++ nl ++ l <> "".
Proof. destruct a; discriminate. Qed.

Lemma recordOk_fresh (t : option string) (r : option RefVal) :
  shaped {| title := t; ref := r; meta := ""; doc := ""; multi := false; sealed := false |}
  = true ->
  recordOk {| title := t; ref := r; meta := ""; doc := ""; multi := false; sealed := false |}.
Proof. intros H. split; [exact H|]. split; auto. Qed.

Lemma entityShaped_groupWith (r : Annot) (x : string) :
  entityShaped r = true -> entityShaped (groupWith r x) = true.
Proof.
  unfold entityShaped, groupWith. cbn [title ref multi].
  destruct (title r); [discriminate|].
  destruct (ref r) as [[s|items]|]; [| |discriminate]; cbn [intoArray].
  - intros _. reflexivity.
  - intros H. apply andb_prop in H as [H Hall]. apply andb_prop in H as [_ Hlen].
    apply Nat.leb_le in Hlen. cbn [andb].
    rewrite forallb_app, Hall, length_app. cbn [forallb isSome andb length].
    rewrite andb_true_r. apply Nat.leb_le. lia.
Qed.

Lemma ctxOk_init : ctxOk init.
Proof. split; [constructor | reflexivity]. Qed.

Lemma Forall_append {A : Type} (P : A -> Prop) (xs : list A) (o : option A) :
  Forall P xs -> (forall x, o = Some x -> P x) -> Forall P (append xs o).
Proof.
  intros Hxs Ho. destruct o as [x|]; cbn [append]; [|exact Hxs].
  apply Forall_app. split; [exact Hxs|]. constructor; [apply Ho; reflexivity | constructor].
Qed.

Lemma ctxOk_step ctx node i ctx' :
  ctxOk ctx -> step ctx node i = Ok ctx' -> ctxOk ctx'.
Proof.
  intros [Hast Hcur] Hs. destruct ctx as [a c done]. cbn [ast current annotation] in *.
  assert (Hpush : Forall recordOk (append done c)).
  { apply Forall_append; [exact Hast|]. intros x ->. apply Hcur. }
  destruct node as [x|t| | |l]; cbn [step annotation current ast] in Hs.
  - destruct a as [[|]|].
    + destruct c as [cur|]; [|discriminate]. destruct Hcur as [Hok Hshape].
      destruct (sealed cur); cbn [negb] in Hs; [discriminate|].
      injection Hs as <-. split; [exact Hast|]. cbn [current annotation].
      pose proof (entityShaped_groupWith cur x Hshape) as Hg.
      split; [|exact Hg]. split.
      * unfold shaped. unfold groupWith in Hg. rewrite Hg. reflexivity.
      * split; auto.
    + discriminate.
    + injection Hs as <-. split; [exact Hpush|]. cbn [current annotation].
      split; [|reflexivity]. apply recordOk_fresh. reflexivity.
  - destruct a; [discriminate|]. injection Hs as <-. split; [exact Hast|].
    cbn [current annotation]. split; [|reflexivity]. apply recordOk_fresh. reflexivity.
  - destruct c as [cur|]; [|discriminate]. injection Hs as <-.
    split; [exact Hast|]. cbn [current annotation]. split; [apply Hcur | exact I].
  - injection Hs as <-. split; [exact Hpush | reflexivity].
  - destruct c as [cur|]; [|discriminate]. destruct Hcur as [[Hsh Htext] Hph].
    destruct a as [ph|]; injection Hs as <-; (split; [exact Hast|]);
      cbn [current annotation].
    + split; [split|].
      * exact Hsh.
      * split; [discriminate|]. cbn [meta]. intros [E _].
        exfalso. exact (append_line_nonempty _ _ E).
      * destruct ph; exact Hph.
    + split; [split|exact I].
      * exact Hsh.
      * split; [discriminate|]. cbn [doc]. intros [_ E].
        exfalso. exact (append_line_nonempty _ _ E).
Qed.

Lemma ctxOk_reduce nodes : forall ctx i ctx',
  ctxOk ctx -> reduce ctx nodes i = Ok ctx' -> ctxOk ctx'.
Proof.
  induction nodes as [|n nodes IH]; intros ctx i ctx' Hok H; cbn [reduce] in H.
  - injection H as <-. exact Hok.
  - destruct (step ctx n i) as [c|e] eqn:Hs; cbn [bind] in H; [|discriminate].
    eapply IH; [|exact H]. eapply ctxOk_step; eassumption.
Qed.

Lemma parse_recordOk (src : string) (rs : list Annot) :
  parse src = Ok rs -> Forall recordOk rs.
Proof.
  unfold parse. intros H.
  destruct (mapM classifyLine (split re_newline src)) as [ns|e]; cbn [bind] in H;
    [|discriminate].
  destruct (reduce init (append ns (Some EOF)) 0) as [c|e] eqn:Hr; cbn [bind] in H;
    [|discriminate].
  injection H as <-. exact (proj1 (ctxOk_reduce _ _ _ _ ctxOk_init Hr)).
Qed.

Lemma parse_records_shaped_aux (src : string) (rs : list Annot) :
  parse src = Ok rs -> Forall (fun r => shaped r = true) rs.
Proof.
  intros H. eapply Forall_impl; [|exact (parse_recordOk src rs H)].
  intros r [Hs _]. exact Hs.
Qed.

(** X3 — Every record the parser returns is an entity record or a guide
    record: either it has no title and one reference with [multi] unset,
    or no title and an array of two or more references, none of them
    undefined, with [multi] set, or it has a title, no reference and
    [multi] unset. *)
Theorem parse_records_shaped (src : string) (rs : list Annot) :
  parse src = Ok rs -> Forall (fun r => shaped r = true) rs.
Proof. exact (parse_records_shaped_aux src rs). Qed.

Lemma parse_records_shaped_witness :
  let src := lines ["@annotate: a"; "@annotate: b"; "---"; "@annotate: c"] in
  parse src
  = Ok [{| title := None; ref := Some (RefArr [Some "a"; Some "b"]); meta := "";
           doc := ""; multi := true; sealed := false |};
        {| title := None; ref := Some (RefStr "c"); meta := ""; doc := "";
           multi := false; sealed := false |}]
  /\ Forall (fun r => shaped r = true)
            [{| title := None; ref := Some (RefArr [Some "a"; Some "b"]); meta := "";
                doc := ""; multi := true; sealed := false |};
             {| title := None; ref := Some (RefStr "c"); meta := ""; doc := "";
                multi := false; sealed := false |}].
Proof.
  intros src. split; [reflexivity|].
  apply (parse_records_shaped src). reflexivity.
Defined.

(** X4 — In every record the parser returns, the sealed flag is unset
    exactly when the metadata text and the documentation text are both
    empty: a record is sealed by its first plain line, and a plain line,
    even an empty one, leaves a line feed in the text. *)
Theorem parse_sealed_iff_text (src : string) (rs : list Annot) :
  parse src = Ok rs ->
  Forall (fun r => sealed r = false <-> (meta r = "" /\ doc r = "")) rs.
Proof.
  intros H. eapply Forall_impl; [|exact (parse_recordOk src rs H)].
  intros r [_ Ht]. exact Ht.
Qed.

Lemma parse_sealed_iff_text_witness :
  let src := lines ["@annotate: a"; ""; "---"; "@annotate: c"] in
  let rs := [{| title := None; ref := Some (RefStr "a"); meta := nl; doc := "";
                multi := false; sealed := true |};
             {| title := None; ref := Some (RefStr "c"); meta := ""; doc := "";
                multi := false; sealed := false |}] in
  parse src = Ok rs
  /\ Forall (fun r => sealed r = false <-> (meta r = "" /\ doc r = "")) rs.
Proof.
  intros src rs. split; [reflexivity|].
  apply (parse_sealed_iff_text src rs). reflexivity.
Defined.

(** ** Analysis of the parser's output *)

Lemma flatten_from {A : Type} (xs : list (list A)) : forall acc,
  fold_left (fun a b => (a ++ b)%list) xs acc = (acc ++ concat xs)%list.
Proof.
  induction xs as [|x xs IH]; intros acc; cbn [fold_left concat].
  - rewrite app_nil_r. reflexivity.
  - rewrite IH, app_assoc. reflexivity.
Qed.

Lemma flatten_concat {A : Type} (xs : list (list A)) : flatten xs = concat xs.
Proof. unfold flatten. rewrite flatten_from. reflexivity. Qed.

Lemma parseMeta_shaped (safeLoad : string -> result Value) (r : Annot) (v : Value) :
  shaped r = true -> safeLoad (meta r) = Ok v ->
  exists us, parseMeta safeLoad r = Ok us /\ length us = refCount r.
Proof.
  intros Hs Hv. unfold parseMeta, refCount. rewrite Hv. cbn [bind].
  destruct (setDocumentation_truthy v (doc r)) as [m Hm]. rewrite Hm. cbn [bind].
  destruct (multi r) eqn:Hmulti.
  - unfold shaped, entityShaped, guideShaped in Hs. rewrite Hmulti in Hs.
    destruct (title r), (ref r) as [[s'|items]|]; cbn in Hs; try discriminate.
    eexists. split; [reflexivity|]. apply length_map.
  - eexists. split; reflexivity.
Qed.

Lemma analyse_shaped (safeLoad : string -> result Value) (rs : list Annot) :
  Forall (fun r => shaped r = true) rs ->
  (forall r, In r rs -> is_ok (safeLoad (meta r)) = true) ->
  exists us, analyse safeLoad rs = Ok us /\ length us = list_sum (map refCount rs).
Proof.
  intros Hs Hload. unfold analyse.
  assert (H : exists uss, mapM (parseMeta safeLoad) rs = Ok uss
                          /\ length (concat uss) = list_sum (map refCount rs)).
  { induction Hs as [|r rs Hr _ IH]; [exists []; split; reflexivity|].
    destruct IH as (uss & Huss & Hlen); [intros x Hx; apply Hload; right; exact Hx|].
    pose proof (Hload r (or_introl eq_refl)) as Hv.
    destruct (safeLoad (meta r)) as [v|] eqn:Ev; [|discriminate].
    destruct (parseMeta_shaped safeLoad r v Hr Ev) as (us & Hus & Hn).
    exists (us :: uss). rewrite mapM_cons, Hus. cbn [bind].
    fold (mapM (parseMeta safeLoad) rs). rewrite Huss. cbn [bind].
    split; [reflexivity|]. simpl. rewrite length_app. lia. }
  destruct H as (uss & -> & Hlen). cbn [bind]. eexists. split; [reflexivity|].
  rewrite flatten_concat. exact Hlen.
Qed.

(** X5 — Analysis of what the parser returned can only fail in the YAML
    loader: when the loader accepts the metadata text of every record,
    [analyse] returns units, one per reference, so as many as the records
    have references in total.  The [map] over a reference that is no array
    never happens. *)
Theorem analyse_after_parse
        (safeLoad : string -> result Value) (src : string) (rs : list Annot) :
  parse src = Ok rs ->
  (forall r, In r rs -> is_ok (safeLoad (meta r)) = true) ->
  exists us, analyse safeLoad rs = Ok us /\ length us = list_sum (map refCount rs).
Proof.
  intros Hp Hload. apply analyse_shaped; [|exact Hload].
  exact (parse_records_shaped_aux src rs Hp).
Qed.

Lemma analyse_after_parse_witness :
  let src := lines ["@annotate: a"; "@annotate: b"; "---"; "@annotate: c"] in
  let safeLoad := fun _ : string => Ok (VObj []) in
  let rs := [{| title := None; ref := Some (RefArr [Some "a"; Some "b"]); meta := "";
                doc := ""; multi := true; sealed := false |};
             {| title := None; ref := Some (RefStr "c"); meta := ""; doc := "";
                multi := false; sealed := false |}] in
  parse src = Ok rs
  /\ exists us, analyse safeLoad rs = Ok us /\ length us = 3.
Proof.
  intros src safeLoad rs. split; [reflexivity|].
  apply (analyse_after_parse safeLoad src rs); [reflexivity|].
  intros r _. reflexivity.
Defined.

(** ** Errors of the parser *)

Lemma step_error ctx node i m :
  step ctx node i = Throw (Error m) -> node <> EOF /\ structuralMessage m i.
Proof.
  intros H. unfold structuralMessage. destruct ctx as [a c done].
  destruct node as [x|t| | |l]; cbn [step annotation current ast] in H.
  - split; [discriminate|]. destruct a as [[|]|]; [| |discriminate].
    + destruct c as [cur|]; [|discriminate].
      destruct (sealed cur); cbn [negb] in H; [|discriminate].
      injection H as <-. auto.
    + injection H as <-. auto.
  - split; [discriminate|]. destruct a; [|discriminate]. injection H as <-. auto.
  - split; [discriminate|]. destruct c; [discriminate|]. injection H as <-. auto.
  - discriminate.
  - split; [discriminate|]. destruct c; [destruct a; discriminate|].
    injection H as <-. auto 6.
Qed.

Lemma reduce_error nodes : forall ctx i m,
  reduce ctx nodes i = Throw (Error m) ->
  exists j, nth_error nodes j <> None /\ nth_error nodes j <> Some EOF
            /\ structuralMessage m (i + j).
Proof.
  induction nodes as [|n nodes IH]; intros ctx i m H; cbn [reduce] in H; [discriminate|].
  destruct (step ctx n i) as [c|e] eqn:Hs; cbn [bind] in H.
  - destruct (IH c (S i) m H) as (j & Hj & Hne & Hm).
    exists (S j). cbn [nth_error]. repeat split; try assumption.
    replace (i + S j) with (S i + j) by lia. exact Hm.
  - injection H as ->. destruct (step_error _ _ _ _ Hs) as [Hn Hm].
    exists 0. cbn [nth_error]. rewrite Nat.add_0_r.
    repeat split; [discriminate | congruence | exact Hm].
Qed.

(** X6 — An [Error] thrown by the parser is one of its five structural
    messages and names, counting from one, a line of the document: the
    end-of-input marker never fails, and a line the classifier refuses
    gives a [TypeError] instead. *)
Theorem parse_error_names_a_line (src m : string) :
  parse src = Throw (Error m) ->
  exists i, i < length (split re_newline src) /\ structuralMessage m i.
Proof.
  unfold parse. intros H.
  destruct (mapM classifyLine (split re_newline src)) as [ns|e] eqn:Hns; cbn [bind] in H.
  - destruct (reduce init (append ns (Some EOF)) 0) as [c|e] eqn:Hr; cbn [bind] in H;
      [discriminate|].
    injection H as ->. cbn [append] in Hr.
    destruct (reduce_error _ _ _ _ Hr) as (j & Hj & Hne & Hm).
    exists j. split; [|exact Hm].
    rewrite <- (mapM_length _ _ _ Hns).
    apply nth_error_Some in Hj. rewrite length_app in Hj. cbn [length] in Hj.
    destruct (Nat.eq_dec j (length ns)) as [->|Hneq]; [|lia].
    exfalso. apply Hne. rewrite nth_error_app2, Nat.sub_diag by lia. reflexivity.
  - injection H as ->. apply mapM_throws in Hns as (l & _ & Hl).
    apply classifyLine_throws_TypeError in Hl as [m' Hm']. discriminate.
Qed.

Lemma parse_error_names_a_line_witness :
  let src := lines ["@annotate: a"; "k: v"; "@guide: G"] in
  parse src = Throw (Error (msg_guides 2))
  /\ exists i, i < length (split re_newline src) /\ structuralMessage (msg_guides 2) i.
Proof.
  intros src. split; [reflexivity|].
  apply (parse_error_names_a_line src (msg_guides 2)). reflexivity.
Defined.

(** ** Splitting a document into lines *)

Lemma rev_string_acc (s : string) : forall acc,
  rev_string acc s = rev_string "" s ++ acc.
Proof.
  induction s as [|c s IH]; intros acc; cbn [rev_string]; [reflexivity|].
  rewrite (IH (String c acc)), (IH (String c "")), append_assoc. reflexivity.
Qed.

Lemma rev_string_cons (c : ascii) (s : string) :
  rev_string "" (String c s) = rev_string "" s ++ String c "".
Proof. cbn [rev_string]. apply rev_string_acc. Qed.

Lemma is_lt_false (c : ascii) :
  is_lt c = false -> Ascii.eqb CR c = false /\ Ascii.eqb LF c = false.
Proof.
  unfold is_lt. intros H. apply orb_false_elim in H as [H1 H2].
  rewrite (Ascii.eqb_sym CR c), (Ascii.eqb_sym LF c). auto.
Qed.

Lemma newline_len_plain (c : ascii) (s : string) (p : option ascii) :
  is_lt c = false -> match_len false re_newline p (String c s) = None.
Proof.
  intros H. apply is_lt_false in H as [H1 H2].
  unfold match_len, match_at, re_newline. cbn [run]. rewrite H1, H2. reflexivity.
Qed.

(** A terminator is matched whole when the text after it does not turn it
    into a longer one. *)
Lemma newline_len_terminator (sep rest : string) (p : option ascii) :
  In sep terminatorTexts ->
  (sep = String LF "" -> headIs CR rest = false) ->
  (sep = String CR "" -> headIs LF rest = false) ->
  match_len false re_newline p (sep ++ rest) = Some (String.length sep).
Proof.
  intros Hsep Hcr Hlf. unfold match_len, match_at, re_newline.
  destruct Hsep as [<-|[<-|[<-|[<-|[]]]]]; cbn [String.append run String.length].
  - specialize (Hcr eq_refl).
    replace (Ascii.eqb CR LF) with false by reflexivity.
    replace (Ascii.eqb LF LF) with true by reflexivity.
    destruct rest as [|x rest]; cbn [headIs] in Hcr.
    + cbn [String.length]. reflexivity.
    + rewrite Hcr. cbn [String.length]. f_equal. lia.
  - replace (Ascii.eqb CR CR) with true by reflexivity.
    replace (Ascii.eqb LF LF) with true by reflexivity.
    cbn [String.length]. f_equal. lia.
  - replace (Ascii.eqb CR LF) with false by reflexivity.
    replace (Ascii.eqb LF LF) with true by reflexivity.
    replace (Ascii.eqb CR CR) with true by reflexivity.
    cbn [String.length]. f_equal. lia.
  - specialize (Hlf eq_refl).
    replace (Ascii.eqb CR CR) with true by reflexivity.
    replace (Ascii.eqb LF CR) with false by reflexivity.
    destruct rest as [|x rest]; cbn [headIs] in Hlf.
    + cbn [String.length]. reflexivity.
    + rewrite Hlf. cbn [String.length]. f_equal. lia.
Qed.

Lemma headIs_join (x : ascii) (sep : string) (ls : list string) :
  is_lt x = true -> sep <> "" -> headIs x sep = false ->
  Forall (fun l => oneLine l = true) ls ->
  headIs x (join sep ls) = false.
Proof.
  intros Hx Hne Hsep Hls.
  assert (Hline : forall l tl, oneLine l = true -> l <> "" -> headIs x (l ++ tl) = false).
  { intros [|c l] tl Hl Hn; [congruence|]. apply oneLine_cons in Hl as [Hc _].
    cbn [String.append headIs]. destruct (Ascii.eqb x c) eqn:E; [|reflexivity].
    apply Ascii.eqb_eq in E. congruence. }
  destruct Hls as [|l ls Hl Hls]; [reflexivity|].
  destruct ls as [|l2 ls]; cbn [join].
  - destruct l as [|c l]; [reflexivity|].
    rewrite <- (append_nil_r (String c l)). apply Hline; [exact Hl | discriminate].
  - destruct l as [|c l].
    + cbn [String.append]. destruct sep as [|s0 sep]; [congruence|]. exact Hsep.
    + apply Hline; [exact Hl | discriminate].
Qed.

Lemma split_from_terminator (sep rest : string) (prev : option ascii) (cur : string) :
  In sep terminatorTexts ->
  (sep = String LF "" -> headIs CR rest = false) ->
  (sep = String CR "" -> headIs LF rest = false) ->
  exists p',
    split_from re_newline 0 prev cur (sep ++ rest)
    = rev_string "" cur :: split_from re_newline 0 p' "" rest.
Proof.
  intros Hsep Hcr Hlf.
  pose proof (newline_len_terminator sep rest prev Hsep Hcr Hlf) as Hm.
  destruct Hsep as [<-|[<-|[<-|[<-|[]]]]];
    cbn [String.append String.length] in Hm; cbn [String.append split_from];
    rewrite Hm; eexists; reflexivity.
Qed.

Lemma split_from_line (L : string) : forall prev cur,
  oneLine L = true ->
  split_from re_newline 0 prev cur L = [rev_string "" cur ++ L]
  /\ forall sep rest,
       In sep terminatorTexts ->
       (sep = String LF "" -> headIs CR rest = false) ->
       (sep = String CR "" -> headIs LF rest = false) ->
       exists p',
         split_from re_newline 0 prev cur (L ++ sep ++ rest)
         = (rev_string "" cur ++ L) :: split_from re_newline 0 p' "" rest.
Proof.
  induction L as [|c L IH]; intros prev cur HL.
  - split; [cbn [split_from]; rewrite append_nil_r; reflexivity|].
    intros sep rest Hsep Hcr Hlf. rewrite append_nil_r. cbn [String.append].
    apply split_from_terminator; assumption.
  - apply oneLine_cons in HL as [Hc HL].
    destruct (IH (Some c) (String c cur) HL) as [IH1 IH2].
    assert (E : rev_string "" (String c cur) ++ L = rev_string "" cur ++ String c L).
    { rewrite rev_string_cons, append_assoc. reflexivity. }
    split.
    + cbn [split_from]. rewrite newline_len_plain by exact Hc. rewrite IH1, E. reflexivity.
    + intros sep rest Hsep Hcr Hlf. cbn [String.append split_from].
      rewrite newline_len_plain by exact Hc.
      destruct (IH2 sep rest Hsep Hcr Hlf) as [p' ->]. rewrite E. exists p'. reflexivity.
Qed.

Lemma split_from_join (sep : string) (ls : list string) :
  In sep terminatorTexts -> ls <> [] ->
  Forall (fun l => oneLine l = true) ls ->
  forall prev, split_from re_newline 0 prev "" (join sep ls) = ls.
Proof.
  intros Hsep Hne Hls. induction Hls as [|l ls Hl Hls IH]; [congruence|]. intros prev.
  destruct ls as [|l2 ls].
  - cbn [join]. exact (proj1 (split_from_line l prev "" Hl)).
  - change (join sep (l :: l2 :: ls)) with (l ++ sep ++ join sep (l2 :: ls)).
    destruct (proj2 (split_from_line l prev "" Hl) sep (join sep (l2 :: ls)) Hsep)
      as [p' ->].
    + intros ->. apply headIs_join; [reflexivity | discriminate | reflexivity | exact Hls].
    + intros ->. apply headIs_join; [reflexivity | discriminate | reflexivity | exact Hls].
    + cbn [rev_string String.append]. f_equal. apply IH. discriminate.
Qed.

(** X7 — Splitting undoes joining: lines without line terminators, joined
    by any one of the four terminators (LF, CR LF, LF CR, CR), are given
    back by the split of [parse] one by one, empty lines included; a
    two-character terminator never counts as two. *)
Theorem split_join (sep : string) (ls : list string) :
  In sep terminatorTexts -> ls <> [] ->
  Forall (fun l => oneLine l = true) ls ->
  split re_newline (join sep ls) = ls.
Proof.
  intros Hsep Hne Hls.
  assert (E : split re_newline (join sep ls) = split_from re_newline 0 None "" (join sep ls))
    by (destruct (join sep ls); reflexivity).
  rewrite E. apply split_from_join; assumption.
Qed.

Lemma split_join_witness :
  let sep := String CR (String LF "") in
  let ls := ["@annotate: a"; ""; "---"; ""; "Text."] in
  In sep terminatorTexts /\ ls <> []
  /\ Forall (fun l => oneLine l = true) ls
  /\ split re_newline (join sep ls) = ls.
Proof.
  intros sep ls.
  assert (H1 : In sep terminatorTexts) by (right; left; reflexivity).
  assert (H2 : ls <> []) by discriminate.
  assert (H3 : Forall (fun l => oneLine l = true) ls)
    by (repeat constructor).
  split; [exact H1|]. split; [exact H2|]. split; [exact H3|].
  exact (split_join sep ls H1 H2 H3).
Defined.

(** X20 — The parser does not care which terminator ends the lines: the
    same lines joined by LF, by CR LF, by LF CR or by CR parse to the same
    result, records or error. *)
Theorem parse_any_terminator (sep sep' : string) (ls : list string) :
  In sep terminatorTexts -> In sep' terminatorTexts -> ls <> [] ->
  Forall (fun l => oneLine l = true) ls ->
  parse (join sep ls) = parse (join sep' ls).
Proof.
  intros Hsep Hsep' Hne Hls.
  assert (E : forall s, In s terminatorTexts -> split re_newline (join s ls) = ls).
  { intros s Hs.
    replace (split re_newline (join s ls))
      with (split_from re_newline 0 None "" (join s ls))
      by (destruct (join s ls); reflexivity).
    apply split_from_join; assumption. }
  unfold parse. rewrite (E sep Hsep), (E sep' Hsep'). reflexivity.
Qed.

Lemma parse_any_terminator_witness :
  let ls := ["@annotate: a"; "k: v"; "---"; "Text."] in
  let crlf := String CR (String LF "") in
  let lf := String LF "" in
  In crlf terminatorTexts /\ In lf terminatorTexts
  /\ parse (join crlf ls) = parse (join lf ls).
Proof.
  intros ls crlf lf.
  assert (H1 : In crlf terminatorTexts) by (right; left; reflexivity).
  assert (H2 : In lf terminatorTexts) by (left; reflexivity).
  split; [exact H1|]. split; [exact H2|].
  apply (parse_any_terminator crlf lf ls H1 H2); [discriminate | repeat constructor].
Defined.

(** ** The classifier on one line *)

Lemma run_lit (m : bool) (p : string) : forall prev s caps (k : cont),
  run m (lit p) prev (p ++ s) caps k = k (afterText prev p) s caps.
Proof.
  induction p as [|c p IH]; intros prev s caps k; [reflexivity|].
  cbn [lit run String.append afterText]. rewrite Ascii.eqb_refl. apply IH.
Qed.

Lemma exec_from_bol_inside (r : re) (s : string) : forall c,
  exec_from false (Cat Bol r) (Some c) s = None.
Proof.
  induction s as [|x s IH]; intros c; cbn [exec_from]; unfold match_at; cbn [run at_bol andb];
    [reflexivity | apply IH].
Qed.

(** A pattern anchored at the start, without the [m] flag, is tried at the
    start only. *)
Lemma test_bol (r : re) (s : string) :
  test false (Cat Bol r) s
  = match match_at false (Cat Bol r) None s with Some _ => true | None => false end.
Proof.
  unfold test, exec. destruct s as [|c s]; cbn [exec_from].
  - destruct (match_at false (Cat Bol r) None "") as [[s' caps]|]; reflexivity.
  - destruct (match_at false (Cat Bol r) None (String c s)) as [[s' caps]|];
      [reflexivity|]. rewrite exec_from_bol_inside. reflexivity.
Qed.

Lemma substring_all (s : string) : substring 0 (String.length s) s = s.
Proof. induction s as [|c s IH]; cbn; [reflexivity | now rewrite IH]. Qed.

Lemma star_dot_line (k : cont) (caps : list string) (res : string * list string) :
  (forall p, k p "" caps = Some res) ->
  forall s prev, oneLine s = true -> star dot prev s caps k = Some res.
Proof.
  intros Hk. induction s as [|c s IH]; intros prev Hs; cbn [star]; [apply Hk|].
  apply oneLine_cons in Hs as [Hc Hs]. unfold dot at 1. rewrite Hc. cbn [negb].
  rewrite IH by exact Hs. reflexivity.
Qed.

(** [(.+)] on the rest of a line takes all of it. *)
Lemma group_dot_line (s : string) (p : option ascii) (caps : list string) :
  oneLine s = true ->
  run true (Grp (Plus dot)) p s caps (fun _ s' c => Some (s', c))
  = match s with
    | EmptyString => None
    | _ => Some ("", (caps ++ [s])%list)
    end.
Proof.
  intros Hs. destruct s as [|c s]; [reflexivity|]. cbn [run].
  pose proof Hs as Hall. apply oneLine_cons in Hs as [Hc Hs].
  unfold dot at 1. rewrite Hc. cbn [negb].
  apply star_dot_line; [|exact Hs]. intros _. unfold consumed.
  cbn [String.length]. rewrite Nat.sub_0_r.
  change (S (String.length s)) with (String.length (String c s)).
  rewrite substring_all. reflexivity.
Qed.

Lemma refText_space (c : ascii) (s : string) :
  space c = true -> s <> "" -> refText (String c s) = refText s.
Proof.
  intros Hc Hs. unfold refText. cbn [dropSpaces]. rewrite Hc.
  destruct (dropSpaces s); [|reflexivity].
  destruct s; [congruence | reflexivity].
Qed.

(** [\s*(.+)] on the rest of a line captures [refText]. *)
Lemma star_space_group (rest : string) : forall prev caps,
  oneLine rest = true -> rest <> "" ->
  star space prev rest caps
       (fun p s c => run true (Grp (Plus dot)) p s c (fun _ s' c' => Some (s', c')))
  = Some ("", (caps ++ [refText rest])%list).
Proof.
  induction rest as [|c rest IH]; intros prev caps Hl Hne; [congruence|].
  pose proof Hl as Hall. apply oneLine_cons in Hl as [Hc Hl]. cbn [star].
  destruct (space c) eqn:Hsp.
  - destruct rest as [|x rest].
    + cbn [star]. rewrite !group_dot_line by assumption.
      unfold refText. cbn [dropSpaces]. rewrite Hsp. reflexivity.
    + rewrite IH by (try assumption; discriminate).
      rewrite (refText_space c (String x rest) Hsp) by discriminate. reflexivity.
  - rewrite group_dot_line by exact Hall.
    unfold refText. cbn [dropSpaces]. rewrite Hsp. reflexivity.
Qed.

Lemma refText_nonempty (rest : string) : rest <> "" -> refText rest <> "".
Proof.
  intros Hne. unfold refText. destruct (dropSpaces rest) eqn:E; [|discriminate].
  clear E. induction rest as [|c rest IH]; [congruence|].
  destruct rest as [|x rest]; [discriminate|]. apply IH. discriminate.
Qed.

Lemma directive_group (head rest : string) :
  oneLine rest = true -> rest <> "" ->
  match_group1 true (Cat Bol (Cat (lit head) (Cat (Star space) (Grp (Plus dot)))))
               (head ++ rest)
  = Ok (refText rest).
Proof.
  intros Hl Hne. unfold match_group1, exec.
  assert (E : match_at true (Cat Bol (Cat (lit head) (Cat (Star space) (Grp (Plus dot)))))
                       None (head ++ rest)
              = Some ("", [refText rest])).
  { unfold match_at. cbn [run at_bol]. rewrite run_lit. cbn [run].
    apply (star_space_group rest _ [] Hl Hne). }
  destruct (head ++ rest) as [|c s] eqn:Es; cbn [exec_from]; rewrite E; reflexivity.
Qed.

(** X8 — On one line, a directive head followed by some text is always
    classified as that directive, and its argument is the text after the
    leading white space, trailing white space kept; when only white space
    follows the head the argument is the last white space character.  The
    argument is never empty. *)
Theorem classifyLine_directive (rest : string) :
  oneLine rest = true -> rest <> "" ->
  classifyLine ("@annotate:" ++ rest) = Ok (Entity (refText rest))
  /\ classifyLine ("@guide:" ++ rest) = Ok (Guide (refText rest))
  /\ refText rest <> "".
Proof.
  intros Hl Hne. split; [|split; [|apply refText_nonempty, Hne]].
  - unfold classifyLine.
    replace (test false re_annotate_head ("@annotate:" ++ rest)) with true
      by (unfold re_annotate_head, re_guide_head; rewrite test_bol; reflexivity).
    unfold re_annotate. rewrite directive_group by assumption. reflexivity.
  - unfold classifyLine.
    replace (test false re_annotate_head ("@guide:" ++ rest)) with false
      by (unfold re_annotate_head, re_guide_head; rewrite test_bol; reflexivity).
    replace (test false re_guide_head ("@guide:" ++ rest)) with true
      by (unfold re_annotate_head, re_guide_head; rewrite test_bol; reflexivity).
    unfold re_guide. rewrite directive_group by assumption. reflexivity.
Qed.

Lemma classifyLine_directive_witness :
  oneLine "  folktale.core  " = true
  /\ classifyLine "@annotate:  folktale.core  " = Ok (Entity "folktale.core  ")
  /\ classifyLine "@guide:  folktale.core  " = Ok (Guide "folktale.core  ").
Proof.
  destruct (classifyLine_directive "  folktale.core  " eq_refl ltac:(discriminate))
    as (H1 & H2 & _).
  split; [reflexivity|]. split; [exact H1 | exact H2].
Defined.

Example classifyLine_blank_argument :
  classifyLine "@annotate:   " = Ok (Entity " ").
Proof. reflexivity. Qed.

(** White space up to the end of the text. *)
Lemma star_space_end (k : cont) :
  (forall p s c, k p s c = if at_eol false s then Some (s, c) else None) ->
  forall t prev caps,
    star space prev t caps k = if allSpace t then Some ("", caps) else None.
Proof.
  intros Hk. induction t as [|c t IH]; intros prev caps; cbn [star allSpace].
  - rewrite Hk. reflexivity.
  - assert (Hstop : k prev (String c t) caps = None) by (rewrite Hk; reflexivity).
    destruct (space c); cbn [andb]; [|exact Hstop].
    rewrite IH. destruct (allSpace t); [reflexivity | exact Hstop].
Qed.

Lemma dash_not_space (c : ascii) : is_char "-" c = true -> space c = false.
Proof. unfold is_char. intros H. apply Ascii.eqb_eq in H. subst c. reflexivity. Qed.

(** Dashes, then white space up to the end of the text. *)
Lemma star_dash_end (k : cont) :
  (forall p s c, k p s c = if allSpace s then Some ("", c) else None) ->
  forall t prev caps,
    star (is_char "-") prev t caps k
    = if allSpace (dropDashes t) then Some ("", caps) else None.
Proof.
  intros Hk. induction t as [|c t IH]; intros prev caps; cbn [star dropDashes].
  - rewrite Hk. reflexivity.
  - destruct (is_char "-" c) eqn:Hc.
    + rewrite IH. destruct (allSpace (dropDashes t)); [reflexivity|].
      rewrite Hk. cbn [allSpace]. rewrite (dash_not_space c Hc). reflexivity.
    + apply Hk.
Qed.

Lemma separator_test (l : string) : test false re_separator l = isSeparatorLine l.
Proof.
  unfold re_separator. rewrite test_bol. unfold match_at. cbn [run lit at_bol].
  destruct l as [|a [|b [|c t]]]; cbn [isSeparatorLine].
  - reflexivity.
  - destruct (Ascii.eqb "-" a); reflexivity.
  - destruct (Ascii.eqb "-" a); [|reflexivity]. destruct (Ascii.eqb "-" b); reflexivity.
  - change (is_char "-" a) with (Ascii.eqb "-" a).
    change (is_char "-" b) with (Ascii.eqb "-" b).
    destruct (Ascii.eqb "-" a); [|reflexivity].
    destruct (Ascii.eqb "-" b); [|reflexivity].
    destruct (is_char "-" c); [|reflexivity]. cbn [andb].
    rewrite (star_dash_end _ (fun p s c' =>
               star_space_end _ (fun _ _ _ => eq_refl) s p c')).
    destruct (allSpace (dropDashes t)); reflexivity.
Qed.

(** X9 — A line is classified as a separator exactly when it consists of
    three or more dashes followed by white space only. *)
Theorem classifyLine_separator (l : string) :
  classifyLine l = Ok Separator <-> isSeparatorLine l = true.
Proof.
  split.
  - unfold classifyLine, match_group1. intros H.
    destruct (test false re_annotate_head l).
    { destruct (exec true re_annotate l) as [[|x [|g gs]]|]; discriminate. }
    destruct (test false re_guide_head l).
    { destruct (exec true re_guide l) as [[|x [|g gs]]|]; discriminate. }
    rewrite separator_test in H. destruct (isSeparatorLine l); [reflexivity | discriminate].
  - intros H. unfold classifyLine. rewrite separator_test, H.
    destruct l as [|a l]; [discriminate|]. cbn [isSeparatorLine] in H.
    destruct l as [|b [|c t]]; try discriminate.
    apply andb_prop in H as [H _]. apply andb_prop in H as [H _].
    apply andb_prop in H as [H _]. unfold is_char in H. apply Ascii.eqb_eq in H.
    subst a. unfold re_annotate_head, re_guide_head. rewrite !test_bol. reflexivity.
Qed.

Lemma leading_at (s : string) (prev : option ascii) :
  match_at false re_leading prev s = if markerTail s then Some ("", []) else None.
Proof.
  unfold match_at, re_leading. cbn [run lit].
  destruct s as [|a [|b t]]; cbn [markerTail]; unfold is_colon.
  - reflexivity.
  - destruct (Ascii.eqb ":" a); reflexivity.
  - destruct (Ascii.eqb ":" a); [|reflexivity].
    destruct (Ascii.eqb ":" b); [|reflexivity]. cbn [andb].
    apply (star_space_end _ (fun _ _ _ => eq_refl)).
Qed.

Lemma leading_search (s : string) : forall prev,
  match exec_from false re_leading prev s with Some _ => true | None => false end
  = endsInMarker s.
Proof.
  induction s as [|c s IH]; intros prev; cbn [exec_from endsInMarker];
    rewrite leading_at.
  - reflexivity.
  - destruct (markerTail (String c s)); [reflexivity|]. apply IH.
Qed.

(** X10 — A paragraph or heading announces an example exactly when its
    text, white space at the end aside, ends in two colons; two colons
    followed by anything else, also on a later line of the text, do not
    count. *)
Theorem isExampleLeadingParagraph_ends (text : string) :
  isExampleLeadingParagraph (Paragraph text) = endsInMarker text
  /\ isExampleLeadingParagraph (Heading text) = endsInMarker text.
Proof.
  unfold isExampleLeadingParagraph, test, exec. split; apply leading_search.
Qed.

Lemma classifyLine_separator_witness :
  isSeparatorLine "-----  " = true /\ classifyLine "-----  " = Ok Separator.
Proof.
  split; [reflexivity|].
  apply (proj2 (classifyLine_separator "-----  ")). reflexivity.
Defined.

(** ** The example miner *)

Lemma collect_segment (seg : list Token) : forall ex cur hd fl,
  existsb isHeading seg = false ->
  exists fl',
    fold_left collectStep seg (ex, cur, hd, fl)
    = (ex, (cur ++ captured fl seg)%list, hd, fl').
Proof.
  induction seg as [|t seg IH]; intros ex cur hd fl Hseg.
  - exists fl. cbn. rewrite app_nil_r. reflexivity.
  - cbn [existsb] in Hseg. apply orb_false_elim in Hseg as [Ht Hseg].
    destruct t as [text|text|text|]; cbn [isHeading] in Ht; [discriminate| | |];
      cbn [fold_left collectStep captured].
    + apply IH; exact Hseg.
    + destruct fl.
      * destruct (IH ex (cur ++ [text])%list hd false Hseg) as [fl' ->].
        exists fl'. rewrite <- app_assoc. reflexivity.
      * apply IH; exact Hseg.
    + apply IH; exact Hseg.
Qed.

Lemma collect_prefix (ts : list Token) : forall ex0 ex cur hd fl,
  fold_left collectStep ts ((ex0 ++ ex)%list, cur, hd, fl)
  = let '(ex', cur', hd', fl') := fold_left collectStep ts (ex, cur, hd, fl) in
    ((ex0 ++ ex')%list, cur', hd', fl').
Proof.
  induction ts as [|t ts IH]; intros ex0 ex cur hd fl; [reflexivity|].
  cbn [fold_left]. destruct t as [text|text|text|]; cbn [collectStep].
  - rewrite <- app_assoc. apply IH.
  - apply IH.
  - destruct fl; apply IH.
  - apply IH.
Qed.

Lemma finishMining_prefix (ex0 : list Example) (st : MinerState) :
  finishMining (let '(ex', cur', hd', fl') := st in ((ex0 ++ ex')%list, cur', hd', fl'))
  = (ex0 ++ finishMining st)%list.
Proof.
  destruct st as [[[ex cur] hd] fl]. cbn [finishMining].
  destruct cur; [reflexivity | symmetry; apply app_assoc].
Qed.

(** X11 — Without a heading, the miner yields nothing when no code block
    directly follows a marker paragraph, and otherwise exactly one
    candidate, without a name, whose source is the captured blocks joined
    by a line holding a semicolon. *)
Theorem collect_without_heading (lexer : string -> list Token) (documentation : string) :
  existsb isHeading (lexer documentation) = false ->
  collectExamples lexer documentation
  = match captured false (lexer documentation) with
    | [] => []
    | blocks => [{| name := None; source := join (nl ++ ";" ++ nl) blocks |}]
    end.
Proof.
  intros H. unfold collectExamples.
  change (collectTokens (lexer documentation))
    with (finishMining (fold_left collectStep (lexer documentation) ([], [], None, false))).
  destruct (collect_segment _ [] [] None false H) as [fl' ->].
  cbn [finishMining app]. destruct (captured false (lexer documentation)); reflexivity.
Qed.

Lemma collect_without_heading_witness :
  let tokens := [Paragraph "Example::"; Code "f(1)"; Code "skipped"; Paragraph "And::";
                 Other; Code "missed"; Paragraph "then ::"; Code "g(2)"] in
  existsb isHeading tokens = false
  /\ collectExamples (fun _ => tokens) "doc"
     = [{| name := None; source := "f(1)" ++ nl ++ ";" ++ nl ++ "g(2)" |}].
Proof.
  intros tokens. split; [reflexivity|].
  rewrite (collect_without_heading (fun _ => tokens) "doc" eq_refl). reflexivity.
Defined.

(** X12 — Every heading closes an entry, also when no code block was
    captured: for tokens up to a first heading [h] and the tokens after
    it, the miner yields first the entry of the part before, named by the
    heading it started under and with the captured blocks joined by an
    empty line, and then what it yields for the rest started under [h]. *)
Theorem collect_at_heading
        (hd : option string) (fl : bool) (seg : list Token) (h : string)
        (rest : list Token) :
  existsb isHeading seg = false ->
  collectFrom hd fl (seg ++ Heading h :: rest)
  = {| name := hd; source := join (nl ++ nl) (captured fl seg) |}
      :: collectFrom (Some h) (isExampleLeadingParagraph (Heading h)) rest.
Proof.
  intros H. unfold collectFrom. rewrite fold_left_app.
  destruct (collect_segment seg [] [] hd fl H) as [fl' ->].
  cbn [fold_left collectStep app].
  exact (eq_trans
           (f_equal finishMining
              (collect_prefix rest
                 [{| name := hd; source := join (nl ++ nl) (captured fl seg) |}]
                 [] [] (Some h) (isExampleLeadingParagraph (Heading h))))
           (finishMining_prefix _ _)).
Qed.

Lemma collect_at_heading_witness :
  let seg := [Paragraph "Use it like this::"; Code "a"; Paragraph "or::"; Code "b"] in
  let rest := [Paragraph "See::"; Code "c"] in
  existsb isHeading seg = false
  /\ collectTokens (seg ++ Heading "More" :: rest)
     = [{| name := None; source := "a" ++ nl ++ nl ++ "b" |};
        {| name := Some "More"; source := "c" |}].
Proof.
  intros seg rest. split; [reflexivity|].
  change (collectTokens (seg ++ Heading "More" :: rest))
    with (collectFrom None false (seg ++ Heading "More" :: rest)).
  rewrite (collect_at_heading None false seg "More" rest eq_refl). reflexivity.
Defined.

(** ** Objects: [merge] and the deprecation inference *)

Lemma has_false (o : Obj) (k : string) : has o k = false <-> ~ In k (keys o).
Proof.
  unfold has, keys. induction o as [|[k' v] o IH]; cbn [existsb map In fst].
  - split; [intros _ [] | reflexivity].
  - rewrite orb_false_iff, IH, String.eqb_neq. tauto.
Qed.

Lemma get_absent (o : Obj) (k : string) : has o k = false -> get o k = VUndefined.
Proof.
  unfold has. induction o as [|[k' v] o IH]; cbn [existsb get fst]; [reflexivity|].
  intros H. apply orb_false_elim in H as [E H]. rewrite E. exact (IH H).
Qed.

Lemma get_set_other (o : Obj) (k k' : string) (v : Value) :
  k' <> k -> get (set o k v) k' = get o k'.
Proof.
  intros Hne. induction o as [|[k0 w] o IH]; cbn [set get].
  - apply String.eqb_neq in Hne. rewrite String.eqb_sym, Hne. reflexivity.
  - destruct (String.eqb k0 k) eqn:E; cbn [get].
    + apply String.eqb_eq in E. subst k0.
      assert (E' : String.eqb k k' = false) by (apply String.eqb_neq; congruence).
      rewrite E'. reflexivity.
    + destruct (String.eqb k0 k'); [reflexivity | exact IH].
Qed.

Lemma set_fresh (o : Obj) (k : string) (v : Value) :
  has o k = false -> set o k v = (o ++ [(k, v)])%list.
Proof.
  unfold has. induction o as [|[k0 w] o IH]; cbn [existsb set fst app]; [reflexivity|].
  intros H. apply orb_false_elim in H as [E H]. rewrite E, (IH H). reflexivity.
Qed.

Lemma keys_set_present (o : Obj) (k : string) (v : Value) :
  has o k = true -> keys (set o k v) = keys o.
Proof.
  unfold has, keys. induction o as [|[k0 w] o IH]; cbn [existsb set fst map]; [discriminate|].
  destruct (String.eqb k0 k) eqn:E; cbn [orb map fst]; [reflexivity|].
  intros H. rewrite (IH H). reflexivity.
Qed.

Lemma set_set (o : Obj) (k : string) (v v' : Value) :
  set (set o k v) k v' = set o k v'.
Proof.
  induction o as [|[k0 w] o IH]; cbn [set].
  - rewrite String.eqb_refl. reflexivity.
  - destruct (String.eqb k0 k) eqn:E; cbn [set]; rewrite E; [reflexivity|].
    rewrite IH. reflexivity.
Qed.

Lemma NoDup_keys_set (o : Obj) (k : string) (v : Value) :
  NoDup (keys o) -> NoDup (keys (set o k v)).
Proof.
  intros H. destruct (has o k) eqn:E.
  - rewrite keys_set_present by exact E. exact H.
  - rewrite set_fresh by exact E. unfold keys. rewrite map_app. cbn [map fst].
    apply has_false in E. apply NoDup_app; [exact H | repeat constructor; intros [] |].
    intros x Hx [<-|[]]. exact (E Hx).
Qed.

(** Copying an object, as [Object.assign] does onto properties [t] of
    other names. *)
Lemma assign_disjoint (o : Obj) : forall t,
  NoDup (keys (t ++ o)%list) -> assign t o = (t ++ o)%list.
Proof.
  unfold assign. induction o as [|[k v] o IH]; intros t H; cbn [fold_left fst snd].
  - rewrite app_nil_r. reflexivity.
  - assert (Hk : has t k = false).
    { apply has_false. unfold keys in *. rewrite map_app in H. cbn [map fst] in H.
      apply NoDup_remove_2 in H. intros Hin. apply H, in_or_app. left. exact Hin. }
    rewrite set_fresh by exact Hk. rewrite IH; rewrite <- app_assoc; [reflexivity | exact H].
Qed.

Lemma merge_one (o : Obj) : NoDup (keys o) -> merge [o] = o.
Proof. intros H. unfold merge. cbn [fold_left]. apply (assign_disjoint o []). exact H. Qed.

Lemma get_assign (s : Obj) (k : string) : forall t,
  NoDup (keys s) ->
  get (assign t s) k = if has s k then get s k else get t k.
Proof.
  unfold assign. induction s as [|[k1 v1] s IH]; intros t H; [reflexivity|].
  cbn [fold_left fst snd]. unfold keys in H. cbn [map fst] in H.
  apply NoDup_cons_iff in H as [Hk1 H]. rewrite (IH _ H).
  unfold has. cbn [existsb fst get]. fold (has s k).
  destruct (String.eqb k1 k) eqn:E; cbn [orb].
  - apply String.eqb_eq in E. subst k1.
    apply has_false in Hk1. rewrite Hk1. apply get_set_same.
  - destruct (has s k); [reflexivity|]. apply get_set_other.
    apply String.eqb_neq in E. congruence.
Qed.

(** X13 — In [merge(a, b)] the later argument wins: a property present in
    [b] reads as in [b], any other reads as in [a]. *)
Theorem merge_lookup (a b : Obj) (k : string) :
  NoDup (keys a) -> NoDup (keys b) ->
  get (merge [a; b]) k = if has b k then get b k else get a k.
Proof.
  intros Ha Hb. unfold merge. cbn [fold_left].
  rewrite get_assign by exact Hb. destruct (has b k); [reflexivity|].
  rewrite get_assign by exact Ha. destruct (has a k) eqn:E; [reflexivity|].
  rewrite (get_absent a k E). reflexivity.
Qed.

Lemma merge_lookup_witness :
  let a := [("name", VStr "f"); ("stability", VStr "stable")] in
  let b := [("stability", VStr "deprecated"); ("module", VStr "guides")] in
  NoDup (keys a) /\ NoDup (keys b)
  /\ get (merge [a; b]) "stability" = VStr "deprecated"
  /\ get (merge [a; b]) "name" = VStr "f".
Proof.
  intros a b.
  assert (Ha : NoDup (keys a)) by (repeat constructor; cbn; intuition discriminate).
  assert (Hb : NoDup (keys b)) by (repeat constructor; cbn; intuition discriminate).
  split; [exact Ha|]. split; [exact Hb|].
  split; [exact (merge_lookup a b "stability" Ha Hb) | exact (merge_lookup a b "name" Ha Hb)].
Defined.

Lemma inferDeprecated_set (m : Obj) :
  NoDup (keys m) -> truthy (get m "deprecated") = true ->
  inferDeprecated m = set m "stability" (VStr "deprecated").
Proof.
  intros H Ht. unfold inferDeprecated. rewrite Ht. unfold merge. cbn [fold_left].
  rewrite (assign_disjoint m [] H). reflexivity.
Qed.

(** X14 — The deprecation inference touches [stability] only, and doing
    it twice is doing it once: every other field reads as before, and the
    result is a fixed point. *)
Theorem inferDeprecated_frame (m : Obj) :
  NoDup (keys m) ->
  inferDeprecated (inferDeprecated m) = inferDeprecated m
  /\ forall k, k <> "stability" -> get (inferDeprecated m) k = get m k.
Proof.
  intros H. destruct (truthy (get m "deprecated")) eqn:Ht.
  - rewrite (inferDeprecated_set m H Ht). split.
    + rewrite inferDeprecated_set.
      * apply set_set.
      * apply NoDup_keys_set, H.
      * rewrite get_set_other by discriminate. exact Ht.
    + intros k Hk. apply get_set_other. exact Hk.
  - unfold inferDeprecated. rewrite Ht, Ht. split; reflexivity.
Qed.

Lemma inferDeprecated_frame_witness :
  let m := [("deprecated", VStr "since 2.0"); ("stability", VStr "stable");
            ("category", VStr "x")] in
  NoDup (keys m)
  /\ inferDeprecated (inferDeprecated m) = inferDeprecated m
  /\ get (inferDeprecated m) "category" = VStr "x".
Proof.
  intros m.
  assert (H : NoDup (keys m)) by (repeat constructor; cbn; intuition discriminate).
  destruct (inferDeprecated_frame m H) as [H1 H2].
  split; [exact H|]. split; [exact H1|]. apply (H2 "category"). discriminate.
Defined.

(** ** Emission of literals *)

Lemma Value_nested_ind (P : Value -> Prop) :
  P VUndefined -> P VNull -> (forall b, P (VBool b)) -> (forall n, P (VNum n)) ->
  (forall s, P (VStr s)) ->
  (forall items named, Forall P items -> P (VArr items named)) ->
  (forall props, Forall (fun kv => P (snd kv)) props -> P (VObj props)) ->
  (forall e, P (VRaw e)) ->
  forall v, P v.
Proof.
  intros HU HN HB HNum HS HA HO HR. fix IH 1. intros v.
  destruct v as [| |b|n|s|items named|props|e];
    [exact HU | exact HN | apply HB | apply HNum | apply HS | | | apply HR].
  - apply HA. induction items as [|x items IHi]; constructor; [apply IH | exact IHi].
  - apply HO. induction props as [|[k x] props IHp]; constructor; [apply IH | exact IHp].
Qed.

Lemma pairToProperty_throws_object
      (inherited : string -> option (Value -> result Expr)) (o : Obj) (kv : string * Value) :
  In kv o -> is_ok (pairToProperty inherited kv) = false ->
  is_ok (objectToExpression inherited o) = false.
Proof.
  unfold objectToExpression, pairs. induction o as [|x o IH]; intros Hin Hkv; [destruct Hin|].
  rewrite mapM_cons. destruct Hin as [-> | Hin].
  - destruct (pairToProperty inherited kv); [discriminate | reflexivity].
  - destruct (pairToProperty inherited x); [|reflexivity]. cbn [bind].
    specialize (IH Hin Hkv). fold (mapM (pairToProperty inherited) o).
    destruct (mapM (pairToProperty inherited) o); [discriminate | reflexivity].
Qed.

(** X15 — A field whose value is [null] or [undefined] (an empty YAML
    value) makes the emission of the whole object throw, under any key
    that is not the name of an inherited member. *)
Theorem objectToExpression_null_field
        (inherited : string -> option (Value -> result Expr))
        (o : Obj) (k : string) (v : Value) :
  In (k, v) o -> v = VNull \/ v = VUndefined -> inherited k = None ->
  is_ok (objectToExpression inherited o) = false.
Proof.
  intros Hin Hv Hinh. apply (pairToProperty_throws_object inherited o (k, v) Hin).
  unfold pairToProperty. cbn [fst snd].
  assert (H : is_ok (valueToLiteral inherited v (Some k)) = false).
  { destruct Hv as [-> | ->]; cbn [valueToLiteral]; unfold isSpecial, parseSpecialProperty;
      rewrite Hinh; destruct (String.eqb k ""), (String.eqb k "~belongsTo"); reflexivity. }
  destruct (valueToLiteral inherited v (Some k)); [discriminate | reflexivity].
Qed.

Lemma objectToExpression_null_field_witness :
  let o := [("category", VStr "x"); ("licence", VNull)] in
  In ("licence", VNull) o
  /\ is_ok (objectToExpression (fun _ => None) o) = false.
Proof.
  intros o.
  assert (H : In ("licence", VNull) o) by (right; left; reflexivity).
  split; [exact H|].
  exact (objectToExpression_null_field (fun _ => None) o "licence" VNull H
           (or_introl eq_refl) eq_refl).
Defined.

Lemma mapM_roundtrip {A B : Type} (f : A -> result B) (g : B -> A) (xs : list A) :
  Forall (fun x => exists y, f x = Ok y /\ g y = x) xs ->
  exists ys, mapM f xs = Ok ys /\ map g ys = xs.
Proof.
  induction 1 as [|x xs (y & Hy & Hg) _ (ys & Hys & Hmap)]; [exists []; split; reflexivity|].
  exists (y :: ys). rewrite mapM_cons, Hy. cbn [bind]. fold (mapM f xs). rewrite Hys.
  cbn [bind map]. rewrite Hg, Hmap. split; reflexivity.
Qed.

(** X16 — Plain data is emitted as the literal that denotes it: for
    strings, booleans, numbers, arrays and objects of them, under a key
    that is not special, [valueToLiteral] succeeds and reading the literal
    back gives the value. *)
Theorem valueToLiteral_roundtrip
        (inherited : string -> option (Value -> result Expr)) (v : Value) :
  forall key,
    plainData inherited v = true -> isSpecial inherited key = false ->
    exists e, valueToLiteral inherited v key = Ok e /\ literalValue e = v.
Proof.
  induction v as [| |b|n|s|items named IH|props IH|e] using Value_nested_ind;
    intros key Hp Hk; cbn [plainData] in Hp; try discriminate;
    cbn [valueToLiteral]; try rewrite Hk.
  - eexists. split; reflexivity.
  - eexists. split; reflexivity.
  - eexists. split; reflexivity.
  - apply andb_prop in Hp as [Hitems Hnamed]. destruct named; [|discriminate].
    destruct (mapM_roundtrip (fun x => valueToLiteral inherited x None) literalValue items)
      as (es & Hes & Hmap).
    { rewrite forallb_forall in Hitems. rewrite Forall_forall in IH |- *.
      intros x Hx. apply (IH x Hx None (Hitems x Hx)). reflexivity. }
    rewrite Hes. cbn [bind]. eexists. split; [reflexivity|].
    cbn [literalValue]. rewrite Hmap. reflexivity.
  - destruct (mapM_roundtrip
                (fun kv => e <- valueToLiteral inherited (snd kv) (Some (fst kv)) ;;
                           Ok (fst kv, e))
                (fun kv => (fst kv, literalValue (snd kv))) props)
      as (ps & Hps & Hmap).
    { rewrite forallb_forall in Hp. rewrite Forall_forall in IH |- *.
      intros [k x] Hx. specialize (Hp _ Hx). cbn [fst snd] in Hp |- *.
      apply andb_prop in Hp as [Hkey Hx']. apply negb_true_iff in Hkey.
      destruct (IH _ Hx (Some k) Hx' Hkey) as (e & He & Hl). cbn [snd] in He.
      rewrite He. cbn [bind]. eexists. split; [reflexivity|]. cbn [fst snd].
      rewrite Hl. reflexivity. }
    rewrite Hps. cbn [bind]. eexists. split; [reflexivity|].
    cbn [literalValue]. rewrite Hmap. reflexivity.
Qed.

Lemma valueToLiteral_roundtrip_witness :
  let v := VObj [("name", VStr "map"); ("signature", VArr [VStr "f"; VBool true] []);
                 ("nested", VObj [("k", VStr "v")])] in
  plainData (fun _ => None) v = true
  /\ exists e, valueToLiteral (fun _ => None) v (Some "meta") = Ok e /\ literalValue e = v.
Proof.
  intros v. split; [reflexivity|].
  apply (valueToLiteral_roundtrip (fun _ => None) v (Some "meta")); reflexivity.
Defined.

(** ** More on the documentation rewrite *)

Lemma terminators_line (L : string) : oneLine L = true -> terminators L = [].
Proof.
  induction L as [|c L IH]; [reflexivity|]. intros H.
  apply oneLine_cons in H as [Hc H]. cbn [terminators]. rewrite Hc. exact (IH H).
Qed.

Lemma terminators_split (L : string) (t : ascii) (rest : string) :
  oneLine L = true -> is_lt t = true ->
  terminators (L ++ String t rest) = t :: terminators rest.
Proof.
  intros HL Ht. induction L as [|c L IH]; cbn [String.append terminators].
  - rewrite Ht. reflexivity.
  - apply oneLine_cons in HL as [Hc HL]. rewrite Hc. exact (IH HL).
Qed.

Lemma rewriteFrom_terminators (n : nat) : forall d prev,
  String.length d <= n -> at_bol true prev = true ->
  terminators (rewriteFrom prev d) = terminators d.
Proof.
  induction n as [|n IH]; intros d prev Hn Hb;
    destruct (first_line d) as [HL | (L & t & rest & -> & HL & Ht & Hlen)].
  - rewrite rewriteFrom_line by assumption.
    rewrite !terminators_line by (try apply oneLine_rewriteLine; assumption). reflexivity.
  - lia.
  - rewrite rewriteFrom_line by assumption.
    rewrite !terminators_line by (try apply oneLine_rewriteLine; assumption). reflexivity.
  - rewrite rewriteFrom_split by assumption.
    rewrite !terminators_split by (try apply oneLine_rewriteLine; assumption).
    f_equal. apply IH; [lia | cbn [at_bol andb]; exact Ht].
Qed.

(** X17 — The rewrite keeps every line terminator of the documentation,
    in order: a line that is exactly [::] is emptied, not removed, so the
    number of lines does not change. *)
Theorem rewriteDocumentation_terminators (d : string) :
  terminators (rewriteDocumentation d) = terminators d.
Proof.
  exact (rewriteFrom_terminators (String.length d) d None (Nat.le_refl _) eq_refl).
Qed.

Lemma match_at_of_len (m : bool) (r : re) (prev : option ascii) (s : string) :
  match_len m r prev s = None -> match_at m r prev s = None.
Proof.
  unfold match_len. destruct (match_at m r prev s) as [[s' c]|]; [discriminate | reflexivity].
Qed.

Lemma markerFree_search (L : string) : forall prev,
  oneLine L = true ->
  (exec_from true re_marker_tail prev L = None <-> markerFree L = true).
Proof.
  induction L as [|c L IH]; intros prev HL; [split; reflexivity|].
  pose proof (marker_tail_line (String c L) prev HL) as Hm.
  cbn [exec_from markerFree]. unfold match_len in Hm.
  apply oneLine_cons in HL as [_ HL].
  destruct (match_at true re_marker_tail prev (String c L)) as [[s' caps]|];
    destruct (tail2 (String c L)); try discriminate; cbn [negb andb].
  - split; discriminate.
  - apply IH, HL.
Qed.

Lemma tailfix_markerFree (L : string) : markerFree L = true -> tailfix L = L.
Proof.
  induction L as [|c L IH]; [reflexivity|]. cbn [markerFree tailfix]. intros H.
  apply andb_prop in H as [H2 H]. apply negb_true_iff in H2. rewrite H2, (IH H). reflexivity.
Qed.

Lemma rewriteLine_markerFree (L : string) : markerFree L = true -> rewriteLine L = L.
Proof.
  intros H. unfold rewriteLine. destruct (exact2 L) eqn:E.
  - apply exact2_tail2 in E. destruct L as [|c L]; [discriminate|].
    cbn [markerFree] in H. rewrite E in H. discriminate.
  - apply tailfix_markerFree, H.
Qed.

Lemma rewriteFrom_unmarked (n : nat) : forall d prev,
  String.length d <= n -> at_bol true prev = true ->
  exec_from true re_marker_tail prev d = None ->
  rewriteFrom prev d = d.
Proof.
  induction n as [|n IH]; intros d prev Hn Hb Hfree;
    destruct (first_line d) as [HL | (L & t & rest & -> & HL & Ht & Hlen)].
  - rewrite rewriteFrom_line by assumption.
    apply rewriteLine_markerFree, (markerFree_search d prev HL), Hfree.
  - lia.
  - rewrite rewriteFrom_line by assumption.
    apply rewriteLine_markerFree, (markerFree_search d prev HL), Hfree.
  - destruct (exec_from_split re_marker_tail t rest lineLocal_marker_tail Ht L prev HL Hfree)
      as [HfL Hfrest].
    rewrite rewriteFrom_split by assumption.
    rewrite rewriteLine_markerFree by (apply (markerFree_search L prev HL), HfL).
    rewrite IH; [reflexivity | lia | cbn [at_bol andb]; exact Ht | exact Hfrest].
Qed.

(** X18 — A documentation in which no line ends in two colons followed by
    spaces or tabs is left as it is by the rewrite. *)
Theorem rewriteDocumentation_unmarked (d : string) :
  test true re_marker_tail d = false -> rewriteDocumentation d = d.
Proof.
  intros H. unfold test, exec in H.
  destruct (exec_from true re_marker_tail None d) eqn:E; [discriminate|].
  exact (rewriteFrom_unmarked (String.length d) d None (Nat.le_refl _) eq_refl E).
Qed.

Lemma rewriteDocumentation_unmarked_witness :
  let d := lines ["A list: a, b"; "Haskell's x :: Int is typed"; ""; "done."] in
  test true re_marker_tail d = false /\ rewriteDocumentation d = d.
Proof.
  intros d. split; [reflexivity|].
  apply (rewriteDocumentation_unmarked d). reflexivity.
Defined.

Lemma markerFree_tailfix (L : string) : tripleFree L = true -> markerFree (tailfix L) = true.
Proof.
  induction L as [|c L IH]; [reflexivity|]. intros H.
  cbn [tripleFree] in H. apply andb_prop in H as [H3 H]. apply negb_true_iff in H3.
  cbn [tailfix]. destruct (tail2 (String c L)) eqn:E2; [reflexivity|].
  cbn [markerFree]. rewrite (IH H), andb_true_r. apply negb_true_iff.
  destruct (tail2 (String c (tailfix L))) eqn:E; [|reflexivity].
  apply tail2_after_tailfix in E as [E|E]; congruence.
Qed.

Lemma markerFree_rewriteLine (L : string) :
  tripleFree L = true -> markerFree (rewriteLine L) = true.
Proof.
  intros H. unfold rewriteLine. destruct (exact2 L); [reflexivity|].
  apply markerFree_tailfix, H.
Qed.

Lemma exec_from_join (r : re) (t : ascii) (rest : string) :
  lineLocal r -> is_lt t = true ->
  forall L prev,
    oneLine L = true ->
    exec_from true r prev L = None -> exec_from true r (Some t) rest = None ->
    exec_from true r prev (L ++ String t rest) = None.
Proof.
  intros Hr Ht. induction L as [|c L IH]; intros prev HL H1 H2.
  - pose proof (match_at_local t rest r "" prev Ht Hr eq_refl) as Hm.
    cbn [String.append] in Hm |- *. cbn [exec_from] in H1 |- *. rewrite Hm.
    destruct (match_at true r prev "") as [[s' c']|]; [discriminate|]. exact H2.
  - pose proof (match_at_local t rest r (String c L) prev Ht Hr HL) as Hm.
    apply oneLine_cons in HL as [_ HL].
    cbn [String.append] in Hm |- *. cbn [exec_from] in H1 |- *. rewrite Hm.
    destruct (match_at true r prev (String c L)) as [[s' c']|]; [discriminate|].
    cbn [extend]. apply IH; assumption.
Qed.

Lemma rewriteFrom_leaves_no_marker (n : nat) : forall d prev,
  String.length d <= n -> at_bol true prev = true ->
  exec_from true re_triple prev d = None ->
  exec_from true re_marker_tail prev (rewriteFrom prev d) = None.
Proof.
  induction n as [|n IH]; intros d prev Hn Hb Hfree;
    destruct (first_line d) as [HL | (L & t & rest & -> & HL & Ht & Hlen)].
  - rewrite rewriteFrom_line by assumption.
    apply markerFree_search; [apply oneLine_rewriteLine, HL|].
    apply markerFree_rewriteLine. eapply tripleFree_of_search; eassumption.
  - lia.
  - rewrite rewriteFrom_line by assumption.
    apply markerFree_search; [apply oneLine_rewriteLine, HL|].
    apply markerFree_rewriteLine. eapply tripleFree_of_search; eassumption.
  - destruct (exec_from_split re_triple t rest lineLocal_triple Ht L prev HL Hfree)
      as [HfL Hfrest].
    rewrite rewriteFrom_split by assumption.
    apply exec_from_join;
      [exact lineLocal_marker_tail | exact Ht | apply oneLine_rewriteLine, HL | |].
    + apply markerFree_search; [apply oneLine_rewriteLine, HL|].
      apply markerFree_rewriteLine. eapply tripleFree_of_search; eassumption.
    + apply IH; [lia | cbn [at_bol andb]; exact Ht | exact Hfrest].
Qed.

(** X19 — After the rewrite no marker is left: when no line of the
    documentation ends in three or more colons followed by spaces or tabs,
    no line of the result ends in two colons followed by spaces or
    tabs. *)
Theorem rewriteDocumentation_leaves_no_marker (d : string) :
  test true re_triple d = false ->
  test true re_marker_tail (rewriteDocumentation d) = false.
Proof.
  intros H. unfold test, exec in H |- *.
  destruct (exec_from true re_triple None d) eqn:E; [discriminate|].
  change (rewriteDocumentation d) with (rewriteFrom None d).
  rewrite (rewriteFrom_leaves_no_marker (String.length d) d None (Nat.le_refl _) eq_refl E).
  reflexivity.
Qed.

Lemma rewriteDocumentation_leaves_no_marker_witness :
  let d := lines ["Example::"; ""; "::"; "    f(x) :: "; "text"] in
  test true re_triple d = false
  /\ test true re_marker_tail d = true
  /\ test true re_marker_tail (rewriteDocumentation d) = false.
Proof.
  intros d. split; [reflexivity|]. split; [reflexivity|].
  apply (rewriteDocumentation_leaves_no_marker d). reflexivity.
Defined.

(** ** The runtime helper *)

Lemma nth_updateAt_same (h : Heap) : forall l o,
  l < length h -> nth l (updateAt h l o) [] = o.
Proof.
  induction h as [|x h IH]; intros l o Hl; cbn [length] in Hl; [lia|].
  destruct l as [|l]; cbn [updateAt nth]; [reflexivity|]. apply IH. lia.
Qed.

Lemma nth_updateAt_other (h : Heap) : forall l i o,
  i <> l -> nth i (updateAt h l o) [] = nth i h [].
Proof.
  induction h as [|x h IH]; intros l i o Hne; [reflexivity|].
  destruct l as [|l], i as [|i]; cbn [updateAt nth]; try reflexivity; try congruence.
  apply IH. congruence.
Qed.

Lemma length_updateAt (h : Heap) : forall l o, length (updateAt h l o) = length h.
Proof.
  induction h as [|x h IH]; intros l o; [reflexivity|].
  destruct l; cbn [updateAt length]; [reflexivity|]. rewrite IH. reflexivity.
Qed.

Lemma storeAll_frame (meta : Obj) (ks : list string) (k : string) : forall acc,
  ~ In k (map storedKey ks) ->
  get (fold_left (fun a key => set a (storedKey key) (get meta key)) ks acc) k = get acc k.
Proof.
  induction ks as [|k1 ks IH]; intros acc Hk; [reflexivity|].
  cbn [fold_left map In] in *. rewrite IH by tauto.
  apply get_set_other. intros E. apply Hk. left. congruence.
Qed.

Lemma storeAll_get (meta : Obj) (ks : list string) (key : string) : forall acc,
  NoDup (map storedKey ks) -> In key ks ->
  get (fold_left (fun a k => set a (storedKey k) (get meta k)) ks acc) (storedKey key)
  = get meta key.
Proof.
  induction ks as [|k1 ks IH]; intros acc Hnd Hin; [destruct Hin|].
  cbn [fold_left map] in *. apply NoDup_cons_iff in Hnd as [Hk1 Hnd].
  destruct Hin as [-> | Hin].
  - rewrite storeAll_frame by exact Hk1. apply get_set_same.
  - apply IH; assumption.
Qed.

(** Where the helper writes. *)
Lemma withMeta_target (h : Heap) (t : Target) (meta : Obj) :
  (forall l, readMeta t = Some l -> l < length h) ->
  exists l,
    l < length (fst (__metamagical_withMeta h t meta))
    /\ snd (__metamagical_withMeta h t meta) = {| ownMeta := Some l; protoMeta := protoMeta t |}
    /\ exists before,
         nth l (fst (__metamagical_withMeta h t meta)) [] = storeAll before meta
         /\ (startsAfresh t = true -> before = [] /\ l = length h)
         /\ (startsAfresh t = false -> before = nth l h [] /\ readMeta t = Some l).
Proof.
  intros Hwf. unfold __metamagical_withMeta.
  destruct (readMeta t) as [l|] eqn:Hr; [destruct (startsAfresh t) eqn:Hf|].
  - exists (length h). cbn [fst snd]. rewrite length_updateAt, length_app. cbn [length].
    split; [lia|]. split; [reflexivity|]. exists [].
    rewrite nth_updateAt_same by (rewrite length_app; cbn [length]; lia).
    rewrite app_nth2, Nat.sub_diag by lia. cbn [nth].
    split; [reflexivity|]. split; [auto | discriminate].
  - exists l. cbn [fst snd]. rewrite length_updateAt.
    pose proof (Hwf l eq_refl) as Hl.
    split; [exact Hl|]. split; [reflexivity|]. exists (nth l h []).
    rewrite nth_updateAt_same by exact Hl.
    split; [reflexivity|]. split; [discriminate | auto].
  - assert (Hf : startsAfresh t = true) by (unfold startsAfresh; rewrite Hr; reflexivity).
    rewrite Hf. exists (length h). cbn [fst snd].
    rewrite length_updateAt, length_app. cbn [length].
    split; [lia|]. split; [reflexivity|]. exists [].
    rewrite nth_updateAt_same by (rewrite length_app; cbn [length]; lia).
    rewrite app_nth2, Nat.sub_diag by lia. cbn [nth].
    split; [reflexivity|]. split; [auto | discriminate].
Qed.

(** X21 — The helper never writes into a metadata object it only found on
    the prototype: when the object has no metadata of its own and inherits
    the object [l], the helper allocates a new metadata object for it,
    holding the new fields only, and every metadata object that existed
    before, [l] included, is as it was. *)
Theorem withMeta_keeps_inherited (h : Heap) (t : Target) (meta : Obj) (l : nat) :
  ownMeta t = None -> protoMeta t = Some (Some l) -> l < length h ->
  ownMeta (snd (__metamagical_withMeta h t meta)) = Some (length h)
  /\ nth (length h) (fst (__metamagical_withMeta h t meta)) [] = storeAll [] meta
  /\ forall i, i < length h -> nth i (fst (__metamagical_withMeta h t meta)) [] = nth i h [].
Proof.
  intros Hown Hproto Hl. unfold __metamagical_withMeta, startsAfresh, readMeta.
  rewrite Hown, Hproto, Nat.eqb_refl. cbn [fst snd ownMeta].
  split; [reflexivity|]. split.
  - rewrite nth_updateAt_same by (rewrite length_app; cbn [length]; lia).
    rewrite app_nth2, Nat.sub_diag by lia. reflexivity.
  - intros i Hi. rewrite nth_updateAt_other by lia. apply app_nth1. exact Hi.
Qed.

Lemma withMeta_keeps_inherited_witness :
  let h := [[("name", VStr "Base")]] in
  let t := {| ownMeta := None; protoMeta := Some (Some 0) |} in
  let meta := [("name", VStr "Derived")] in
  fst (__metamagical_withMeta h t meta) = [[("name", VStr "Base")]; [("name", VStr "Derived")]]
  /\ ownMeta (snd (__metamagical_withMeta h t meta)) = Some 1
  /\ forall i, i < length h -> nth i (fst (__metamagical_withMeta h t meta)) [] = nth i h [].
Proof.
  intros h t meta. split; [reflexivity|].
  destruct (withMeta_keeps_inherited h t meta 0 eq_refl eq_refl (Nat.lt_0_succ 0))
    as (H1 & _ & H3).
  split; [exact H1 | exact H3].
Defined.

(** X22 — After the helper, every field of [meta] reads back from the
    metadata of the object under its stored name, the key without its
    leading tilde: provided no two keys of [meta] are stored under one
    name. *)
Theorem withMeta_stores (h : Heap) (t : Target) (meta : Obj) (key : string) :
  (forall l, readMeta t = Some l -> l < length h) ->
  NoDup (map storedKey (keys meta)) -> In key (keys meta) ->
  exists l,
    ownMeta (snd (__metamagical_withMeta h t meta)) = Some l
    /\ get (nth l (fst (__metamagical_withMeta h t meta)) []) (storedKey key) = get meta key.
Proof.
  intros Hwf Hnd Hin.
  destruct (withMeta_target h t meta Hwf) as (l & _ & Ht & before & Hn & _).
  exists l. rewrite Ht, Hn. split; [reflexivity|].
  unfold storeAll. apply storeAll_get; assumption.
Qed.

Lemma withMeta_stores_witness :
  let h := [[("name", VStr "f"); ("belongsTo", VStr "old")]] in
  let t := {| ownMeta := Some 0; protoMeta := Some None |} in
  let meta := [("~belongsTo", VStr "new"); ("category", VStr "x")] in
  storedKey "~belongsTo" = "belongsTo"
  /\ exists l,
       ownMeta (snd (__metamagical_withMeta h t meta)) = Some l
       /\ get (nth l (fst (__metamagical_withMeta h t meta)) []) (storedKey "~belongsTo") = VStr "new".
Proof.
  intros h t meta. split; [reflexivity|].
  apply (withMeta_stores h t meta "~belongsTo").
  - intros l [= <-]. cbn. lia.
  - repeat constructor; cbn; intuition discriminate.
  - left. reflexivity.
Defined.

(** X23 — Metadata of the object's own accumulates: when the object has
    its own metadata object [l], which is not the one of its prototype,
    the helper allocates nothing, writes into [l] only, and every field of
    [l] that [meta] does not name reads as before. *)
Theorem withMeta_accumulates (h : Heap) (t : Target) (meta : Obj) (l : nat) :
  ownMeta t = Some l -> protoMeta t <> Some (Some l) -> l < length h ->
  ownMeta (snd (__metamagical_withMeta h t meta)) = Some l
  /\ length (fst (__metamagical_withMeta h t meta)) = length h
  /\ (forall i, i <> l -> nth i (fst (__metamagical_withMeta h t meta)) [] = nth i h [])
  /\ forall k, ~ In k (map storedKey (keys meta)) ->
               get (nth l (fst (__metamagical_withMeta h t meta)) []) k = get (nth l h []) k.
Proof.
  intros Hown Hproto Hl.
  assert (Hf : startsAfresh t = false).
  { unfold startsAfresh, readMeta. rewrite Hown.
    destruct (protoMeta t) as [[l'|]|]; try reflexivity.
    apply Nat.eqb_neq. congruence. }
  assert (Hr : readMeta t = Some l) by (unfold readMeta; rewrite Hown; reflexivity).
  unfold __metamagical_withMeta. rewrite Hr, Hf. cbn [fst snd ownMeta].
  split; [reflexivity|]. split; [apply length_updateAt|]. split.
  - intros i Hi. apply nth_updateAt_other. exact Hi.
  - intros k Hk. rewrite nth_updateAt_same by exact Hl.
    unfold storeAll. apply storeAll_frame. exact Hk.
Qed.

Lemma withMeta_accumulates_witness :
  let h := [[("name", VStr "f"); ("category", VStr "old")]] in
  let t := {| ownMeta := Some 0; protoMeta := Some None |} in
  let meta := [("category", VStr "new")] in
  fst (__metamagical_withMeta h t meta) = [[("name", VStr "f"); ("category", VStr "new")]]
  /\ get (nth 0 (fst (__metamagical_withMeta h t meta)) []) "name" = get (nth 0 h []) "name".
Proof.
  intros h t meta. split; [reflexivity|].
  destruct (withMeta_accumulates h t meta 0 eq_refl ltac:(discriminate) (Nat.lt_0_succ 0))
    as (_ & _ & _ & H).
  apply (H "name"). cbn. intuition discriminate.
Defined.

(** ** Guides, and the units of a document made of blocks *)

Lemma reduce_guide (t : string) (ms ds : list string) (done : list Annot) (i : nat) :
  reduce {| annotation := None; current := None; ast := done |} (guideNodes t ms ds) i
  = Ok {| annotation := None; current := Some (guideRecord t ms ds); ast := done |}.
Proof.
  unfold guideNodes, guideRecord. cbn [reduce step annotation current ast bind].
  rewrite reduce_app, reduce_meta_lines. cbn [bind reduce step current annotation ast].
  rewrite reduce_doc_lines, fold_docLine, fold_metaLine. cbn.
  destruct ms, ds; reflexivity.
Qed.

(** X24 — A guide at the head of a document is kept: a guide block
    followed by entity blocks parses into the guide record followed by the
    records of the blocks, in order. *)
Theorem parse_guide_then_blocks
        (src t : string) (ms ds : list string) (bs : list Block) :
  mapM classifyLine (split re_newline src)
  = Ok (guideNodes t ms ds ++ concat (map blockNodes bs))%list ->
  parse src = Ok (guideRecord t ms ds :: map blockRecord bs).
Proof.
  intros H. unfold parse. rewrite H. cbn [bind append]. unfold init.
  rewrite <- app_assoc, reduce_app, reduce_guide. cbn [bind].
  rewrite reduce_blocks. reflexivity.
Qed.

Lemma parse_guide_then_blocks_witness :
  let src := lines ["@guide: Start here"; "parent: folktale"; "---"; "Welcome.";
                    "@annotate: folktale.core"; "---"; "The core."] in
  mapM classifyLine (split re_newline src)
  = Ok (guideNodes "Start here" ["parent: folktale"] ["Welcome."]
          ++ concat (map blockNodes [mkBlock "folktale.core" [] [] ["The core."]]))%list
  /\ parse src
     = Ok [{| title := Some "Start here"; ref := None; meta := nl ++ "parent: folktale";
              doc := nl ++ "Welcome."; multi := false; sealed := true |};
           {| title := None; ref := Some (RefStr "folktale.core"); meta := "";
              doc := nl ++ "The core."; multi := false; sealed := true |}].
Proof.
  intros src. split; [reflexivity|].
  apply (parse_guide_then_blocks src "Start here" ["parent: folktale"] ["Welcome."]
           [mkBlock "folktale.core" [] [] ["The core."]]).
  reflexivity.
Defined.

Lemma parseMeta_block (safeLoad : string -> result Value) (b : Block) (f : Value) :
  fieldsOf safeLoad b f -> parseMeta safeLoad (blockRecord b) = Ok (blockUnits b f).
Proof.
  intros (loaded & Hload & Hf). unfold parseMeta, blockRecord, blockUnits.
  cbn [meta doc multi ref title]. rewrite Hload. cbn [bind]. rewrite Hf. cbn [bind].
  destruct (blockMore b) as [|x more]; [reflexivity|].
  cbn [map]. rewrite map_map. reflexivity.
Qed.

Lemma analyse_blocks (safeLoad : string -> result Value) (bs : list Block) (fs : list Value) :
  Forall2 (fieldsOf safeLoad) bs fs ->
  analyse safeLoad (map blockRecord bs)
  = Ok (concat (map (fun bf => blockUnits (fst bf) (snd bf)) (combine bs fs))).
Proof.
  intros H. unfold analyse.
  assert (E : mapM (parseMeta safeLoad) (map blockRecord bs)
              = Ok (map (fun bf => blockUnits (fst bf) (snd bf)) (combine bs fs))).
  { induction H as [|b f bs fs Hb _ IH]; [reflexivity|].
    cbn [map combine fst snd]. rewrite mapM_cons, (parseMeta_block _ _ _ Hb). cbn [bind].
    fold (mapM (parseMeta safeLoad) (map blockRecord bs)). rewrite IH. reflexivity. }
  rewrite E. cbn [bind]. rewrite flatten_concat. reflexivity.
Qed.

(** X25 — For a document made of blocks whose metadata the YAML loader
    accepts, parsing and then analysing gives, block after block and
    reference after reference, one unit per reference; the units of one
    block carry one and the same fields value, the loaded metadata with
    [documentation] set to the documentation text of the block. *)
Theorem analyse_document
        (safeLoad : string -> result Value) (src : string)
        (bs : list Block) (fs : list Value) :
  mapM classifyLine (split re_newline src) = Ok (concat (map blockNodes bs)) ->
  Forall2 (fieldsOf safeLoad) bs fs ->
  (entities <- parse src ;; analyse safeLoad entities)
  = Ok (concat (map (fun bf => blockUnits (fst bf) (snd bf)) (combine bs fs))).
Proof.
  intros Hsrc Hfs.
  assert (Hp : parse src = Ok (map blockRecord bs)).
  { unfold parse. rewrite Hsrc. cbn [bind append]. unfold init.
    rewrite reduce_blocks. reflexivity. }
  rewrite Hp. cbn [bind]. apply analyse_blocks, Hfs.
Qed.

Lemma analyse_document_witness :
  let src := lines ["@annotate: a"; "@annotate: b"; "@annotate: c"; "k: v"; "---"; "Shared.";
                    "@annotate: d"; "---"] in
  let safeLoad := fun s : string =>
                    if String.eqb s "" then Ok VUndefined else Ok (VObj [("k", VStr "v")]) in
  let f1 := VObj [("k", VStr "v"); ("documentation", VStr (nl ++ "Shared."))] in
  let f2 := VObj [("documentation", VStr "")] in
  mapM classifyLine (split re_newline src)
  = Ok (concat (map blockNodes [mkBlock "a" ["b"; "c"] ["k: v"] ["Shared."];
                                mkBlock "d" [] [] []]))
  /\ (entities <- parse src ;; analyse safeLoad entities)
     = Ok [{| unit_title := None; unit_ref := Some (RefStr "a"); unit_meta := f1 |};
           {| unit_title := None; unit_ref := Some (RefStr "b"); unit_meta := f1 |};
           {| unit_title := None; unit_ref := Some (RefStr "c"); unit_meta := f1 |};
           {| unit_title := None; unit_ref := Some (RefStr "d"); unit_meta := f2 |}].
Proof.
  intros src safeLoad f1 f2. split; [reflexivity|].
  apply (analyse_document safeLoad src
           [mkBlock "a" ["b"; "c"] ["k: v"] ["Shared."]; mkBlock "d" [] [] []] [f1; f2]).
  - reflexivity.
  - constructor; [|constructor; [|constructor]].
    + exists (VObj [("k", VStr "v")]). split; reflexivity.
    + exists VUndefined. split; reflexivity.
Defined.

(** ** Plain lines *)

Lemma run_lit_head (p : string) : forall l prev caps,
  match run false (lit p) prev l caps (fun _ s' c => Some (s', c)) with
  | Some _ => true
  | None => false
  end = startsWith p l.
Proof.
  induction p as [|a p IH]; intros l prev caps; cbn [lit run startsWith]; [reflexivity|].
  destruct l as [|b l]; [reflexivity|].
  destruct (Ascii.eqb a b); cbn [andb]; [apply IH | reflexivity].
Qed.

Lemma head_test (p l : string) : test false (Cat Bol (lit p)) l = startsWith p l.
Proof.
  rewrite test_bol. unfold match_at. cbn [run at_bol]. apply run_lit_head.
Qed.

(** X26 — A line is classified as a plain line, carrying its whole text,
    exactly when it begins with neither [@annotate:] nor [@guide:] and is
    no separator line. *)
Theorem classifyLine_plain (l : string) :
  classifyLine l = Ok (Line l)
  <-> (startsWith "@annotate:" l = false /\ startsWith "@guide:" l = false
       /\ isSeparatorLine l = false).
Proof.
  unfold classifyLine, re_annotate_head, re_guide_head.
  rewrite !head_test, separator_test. unfold match_group1.
  destruct (startsWith "@annotate:" l).
  { split; [|intros [H _]; discriminate].
    destruct (exec true re_annotate l) as [[|x [|g gs]]|]; discriminate. }
  destruct (startsWith "@guide:" l).
  { split; [|intros (_ & H & _); discriminate].
    destruct (exec true re_guide l) as [[|x [|g gs]]|]; discriminate. }
  destruct (isSeparatorLine l).
  - split; [discriminate | intros (_ & _ & H); discriminate].
  - split; auto.
Qed.

Lemma classifyLine_plain_witness :
  startsWith "@annotate:" " @annotate: x" = false
  /\ classifyLine " @annotate: x" = Ok (Line " @annotate: x")
  /\ classifyLine "-- not a separator" = Ok (Line "-- not a separator").
Proof.
  split; [reflexivity|]. split.
  - apply (proj2 (classifyLine_plain " @annotate: x")). repeat split; reflexivity.
  - apply (proj2 (classifyLine_plain "-- not a separator")). repeat split; reflexivity.
Defined.
